(** * Network composition and scheduling of [NetworksPython/networks/network.py]

    A shallow embedding of the time-step arithmetic ([is_multiple], [gcd],
    [lcm]), of the connectivity graph ([add_layer], [remove_layer],
    [connect]), of the evolution order resolver ([_set_evolution_order]) and
    of the scheduler ([evolve], [train], [_check_sync], [reset_all]),
    followed by the properties proved about them.

    Conventions of the embedding.
    - A Python [float] time step is identified with the decimal number that
      [Decimal(str(x))] reads from it, and arithmetic on such numbers is
      exact: the binary rounding of [float] and the 28-digit context
      precision of [decimal] are not modelled.
    - Layer objects live in a store indexed by object identity; a Python
      reference to a layer is an identity.
    - A Python [set] has no order of its own: the order in which a set is
      iterated or emptied by [pop] is given by a function [set_iter], about
      which only [set_iter_spec] is ever assumed.
    - A call either returns, raises, or exhausts the fuel of a loop whose
      termination is a theorem rather than a syntactic fact. *)

From stdpp Require Import gmap strings list fin_maps sets relations functions.
From Stdlib Require Import ZArith Lia Znumtheory Ascii DecimalString.
From Stdlib Require DecimalZ DecimalPos.

Local Open Scope Z_scope.

(** ** Outcomes *)

(** The messages of [NetworkError], with the values their format strings
    are filled with. *)
Inductive NetworkErrorMsg :=
  | DimensionsDoNotMatch (pre_name : string) (pre_size : Z)
                         (post_name : string) (post_size_in : Z)
  | ClassesDoNotMatch (pre_name : string) (pre_output_type : string)
                      (post_name : string) (post_input_type : string)
  | CannotResolveEvolutionOrder
  | LayersNotInSync.

Inductive ValueErrorMsg :=
  | TooSmallValuesForLcm
  | DtTooSmallForLayers
  | DtNotMultipleOfLayerDt (layer_name : string)
  | NoReasonableCommonTimeStep
  | NegativeDimensions.

Inductive Exn :=
  | NetworkError (msg : NetworkErrorMsg)
  | ValueError (msg : ValueErrorMsg)
  | InvalidOperation
  | ZeroDivisionError
  | TypeError
  | AttributeError
  | KeyError
  | IndexError
  | AssertionError
  | LayerException (code : Z).

Inductive Result (A : Type) :=
  | Ok (a : A)
  | Raise (e : Exn)
  | OutOfFuel.
Arguments Ok {A} a.
Arguments Raise {A} e.
Arguments OutOfFuel {A}.

Definition rbind {A B} (r : Result A) (k : A → Result B) : Result B :=
  match r with
  | Ok a => k a
  | Raise e => Raise e
  | OutOfFuel => OutOfFuel
  end.

Notation "'let!' x ':=' r 'in' k" := (rbind r (λ x, k))
  (at level 10, x pattern, r at level 100, k at level 200).

(** ** Decimal numbers *)

(** A [Decimal] is a signed coefficient and a power-of-ten exponent; its
    value is [coef * 10 ^ expo]. *)
Record Decimal := mkDecimal { coef : Z; expo : Z }.

(** The coefficient of [d] on the grid of ulp [10 ^ e], for [e <= expo d]. *)
Definition align (e : Z) (d : Decimal) : Z := coef d * 10 ^ (expo d - e).

Definition common_expo (a b : Decimal) : Z := Z.min (expo a) (expo b).

Definition dec_of_Z (n : Z) : Decimal := mkDecimal n 0.

Definition dec_compare (a b : Decimal) : comparison :=
  let e := common_expo a b in align e a ?= align e b.

Definition dec_eqb (a b : Decimal) : bool :=
  match dec_compare a b with Eq => true | _ => false end.
Definition dec_ltb (a b : Decimal) : bool :=
  match dec_compare a b with Lt => true | _ => false end.
Definition dec_leb (a b : Decimal) : bool :=
  match dec_compare a b with Gt => false | _ => true end.

Definition dec_is_zero (a : Decimal) : bool := coef a =? 0.

Definition dec_add (a b : Decimal) : Decimal :=
  let e := common_expo a b in mkDecimal (align e a + align e b) e.
Definition dec_sub (a b : Decimal) : Decimal :=
  let e := common_expo a b in mkDecimal (align e a - align e b) e.
Definition dec_mul (a b : Decimal) : Decimal :=
  mkDecimal (coef a * coef b) (expo a + expo b).
Definition dec_abs (a : Decimal) : Decimal := mkDecimal (Z.abs (coef a)) (expo a).
Definition dec_min (a b : Decimal) : Decimal := if dec_leb a b then a else b.
Definition dec_max (a b : Decimal) : Decimal := if dec_leb b a then a else b.

(** [a % b] on decimals: the remainder has the sign of the dividend and lies
    on the finer of the two grids; [x % 0] is an [InvalidOperation]. *)
Definition dec_rem (a b : Decimal) : Result Decimal :=
  if dec_is_zero b then Raise InvalidOperation
  else let e := common_expo a b in
       Ok (mkDecimal (Z.rem (align e a) (align e b)) e).

(** [a / b] where the quotient is an integer, the one way the source divides
    decimals ([a / gcd(a, b)], exact by [gcd_divides_both]); [x / 0] is an
    [InvalidOperation]. *)
Definition dec_div (a b : Decimal) : Result Decimal :=
  if dec_is_zero b then Raise InvalidOperation
  else let e := common_expo a b in
       Ok (dec_of_Z (Z.quot (align e a) (align e b))).

(** Rounding of the fraction [n / d], [0 < d], to the nearest integer, ties
    to the even one ([np.round]). *)
Definition round_half_even (n d : Z) : Z :=
  let q := n / d in
  let r := n mod d in
  if 2 * r <? d then q
  else if d <? 2 * r then q + 1
  else if Z.even q then q else q + 1.

Definition np_round (x : Decimal) : Z :=
  if 0 <=? expo x then coef x * 10 ^ expo x
  else round_half_even (coef x) (10 ^ (- expo x)).

(** [np.round(a / b)] for two time steps, [b] not zero. *)
Definition round_quotient (a b : Decimal) : Z :=
  let e := common_expo a b in
  if 0 <? align e b then round_half_even (align e a) (align e b)
  else round_half_even (- align e a) (- align e b).

(** [np.floor(a / b)], [b] not zero. *)
Definition floor_quotient (a b : Decimal) : Z :=
  let e := common_expo a b in align e a / align e b.

(** ** Time-step arithmetic *)

Definition tol_rel : Decimal := mkDecimal 1 (-5).
Definition decimal_base : Decimal := mkDecimal 1 (-7).
Definition tol_abs : Decimal := mkDecimal 1 (-10).

Definition is_multiple_tol (a b tol_rel tol_abs : Decimal) : Result bool :=
  let! r := dec_rem a b in
  let min_remainder := dec_min r (dec_sub b r) in
  Ok (dec_ltb min_remainder (dec_add (dec_mul tol_rel b) tol_abs)).

Definition is_multiple (a b : Decimal) : Result bool :=
  is_multiple_tol a b tol_rel tol_abs.

(** The recursion of [gcd], on the number of calls still allowed. *)
Fixpoint gcd_rec (fuel : nat) (a b : Decimal) : Result Decimal :=
  match fuel with
  | O => OutOfFuel
  | S fuel' =>
      if dec_eqb b (dec_of_Z 0) then Ok a
      else let! r := dec_rem a b in gcd_rec fuel' b r
  end.

(** Calls that Euclid's algorithm needs at most when the second argument
    has coefficient [n] on the common grid: it halves every two calls. *)
Definition gcd_depth (n : Z) : nat := (2 * Z.to_nat (Z.log2_up (Z.abs n + 1)) + 1)%nat.

Definition gcd (a b : Decimal) : Result Decimal :=
  gcd_rec (gcd_depth (align (common_expo a b) b)) a b.

(** [float(a) / decimal_base]. *)
Definition div_decimal_base (a : Decimal) : Decimal :=
  mkDecimal (coef a) (expo a - expo decimal_base).

Definition lcm (a b : Decimal) : Result Decimal :=
  let a_rnd := np_round (div_decimal_base a) in
  let b_rnd := np_round (div_decimal_base b) in
  if dec_ltb tol_rel (dec_abs (dec_sub (dec_of_Z a_rnd) (div_decimal_base a)))
     || dec_ltb tol_rel (dec_abs (dec_sub (dec_of_Z b_rnd) (div_decimal_base b)))
  then Raise (ValueError TooSmallValuesForLcm)
  else
    let a := dec_of_Z a_rnd in
    let b := dec_of_Z b_rnd in
    let! g := gcd a b in
    let! q := dec_div a g in
    Ok (dec_mul (dec_mul q b) decimal_base).

(** ** Time series *)

(** The interchange type of the scheduler: the attributes the network reads
    or writes; the samples themselves are opaque to it. *)
Record TimeSeries := mkTimeSeries {
  ts_name : option string;
  periodic : bool;
  duration : Decimal;
  t_stop : Decimal;
  trial_starts : option (list Decimal);
  trial_start_times : option (list Decimal);
  samples : list Z }.

Definition set_ts_name (n : option string) (ts : TimeSeries) : TimeSeries :=
  mkTimeSeries n (periodic ts) (duration ts) (t_stop ts) (trial_starts ts)
               (trial_start_times ts) (samples ts).
Definition set_trial_starts (v : option (list Decimal)) (ts : TimeSeries) : TimeSeries :=
  mkTimeSeries (ts_name ts) (periodic ts) (duration ts) (t_stop ts) v
               (trial_start_times ts) (samples ts).

(** ** Layers *)

(** Identity of a layer object. *)
Definition LayerId := nat.

Module Layer.

Record t := mk {
  name : string;
  size_in : Z;
  size : Z;
  dt : Decimal;
  _timestep : Z;
  state : list Z;
  input_type : string;
  output_type : string;
  pre_layer : option LayerId;
  external_input : bool;
  _timesteps_per_network_dt : Z }.

Definition set_name (v : string) (l : t) : t :=
  mk v (size_in l) (size l) (dt l) (_timestep l) (state l) (input_type l)
     (output_type l) (pre_layer l) (external_input l) (_timesteps_per_network_dt l).
Definition set__timestep (v : Z) (l : t) : t :=
  mk (name l) (size_in l) (size l) (dt l) v (state l) (input_type l)
     (output_type l) (pre_layer l) (external_input l) (_timesteps_per_network_dt l).
Definition set_state (v : list Z) (l : t) : t :=
  mk (name l) (size_in l) (size l) (dt l) (_timestep l) v (input_type l)
     (output_type l) (pre_layer l) (external_input l) (_timesteps_per_network_dt l).
Definition set_pre_layer (v : option LayerId) (l : t) : t :=
  mk (name l) (size_in l) (size l) (dt l) (_timestep l) (state l) (input_type l)
     (output_type l) v (external_input l) (_timesteps_per_network_dt l).
Definition set_external_input (v : bool) (l : t) : t :=
  mk (name l) (size_in l) (size l) (dt l) (_timestep l) (state l) (input_type l)
     (output_type l) (pre_layer l) v (_timesteps_per_network_dt l).
Definition set__timesteps_per_network_dt (v : Z) (l : t) : t :=
  mk (name l) (size_in l) (size l) (dt l) (_timestep l) (state l) (input_type l)
     (output_type l) (pre_layer l) (external_input l) v.

(** The property [t]: the layer's clock in seconds. *)
Definition t_ (l : t) : Decimal := dec_mul (dec_of_Z (_timestep l)) (dt l).

(** [reset_state] of [layers/layer.py]: the state becomes [zeros(size)]. *)
Definition reset_state (l : t) : t :=
  set_state (replicate (Z.to_nat (size l)) 0) l.

(** [reset_all] of [layers/layer.py]: the clock returns to zero, then the
    state is reset. *)
Definition reset_all (l : t) : t := reset_state (set__timestep 0 l).

End Layer.

(** ** The network *)

Module Network.

Record t := mk {
  _timestep : Z;
  layerset : gset LayerId;
  _dt : option Decimal;
  _force_dt : bool;
  evol_order : list LayerId;
  attrs : gmap string LayerId;
  input_layer : option LayerId;
  output_layer : option LayerId }.

Definition set__timestep (v : Z) (n : t) : t :=
  mk v (layerset n) (_dt n) (_force_dt n) (evol_order n) (attrs n)
     (input_layer n) (output_layer n).
Definition set_layerset (v : gset LayerId) (n : t) : t :=
  mk (_timestep n) v (_dt n) (_force_dt n) (evol_order n) (attrs n)
     (input_layer n) (output_layer n).
Definition set__dt (v : option Decimal) (n : t) : t :=
  mk (_timestep n) (layerset n) v (_force_dt n) (evol_order n) (attrs n)
     (input_layer n) (output_layer n).
Definition set_evol_order (v : list LayerId) (n : t) : t :=
  mk (_timestep n) (layerset n) (_dt n) (_force_dt n) v (attrs n)
     (input_layer n) (output_layer n).
Definition set_attrs (v : gmap string LayerId) (n : t) : t :=
  mk (_timestep n) (layerset n) (_dt n) (_force_dt n) (evol_order n) v
     (input_layer n) (output_layer n).
Definition set_input_layer (v : option LayerId) (n : t) : t :=
  mk (_timestep n) (layerset n) (_dt n) (_force_dt n) (evol_order n) (attrs n)
     v (output_layer n).
Definition set_output_layer (v : option LayerId) (n : t) : t :=
  mk (_timestep n) (layerset n) (_dt n) (_force_dt n) (evol_order n) (attrs n)
     (input_layer n) v.

(** The property [t]: [0] while no time step is known, else
    [_dt * _timestep]. *)
Definition t_ (n : t) : Decimal :=
  match _dt n with
  | None => dec_of_Z 0
  | Some d => dec_mul d (dec_of_Z (_timestep n))
  end.

End Network.

(** ** Program states and the monad of methods *)

(** What the scheduler does to its collaborators, in order. *)
Inductive Event :=
  | LayerEvolve (lyr : LayerId) (num_timesteps : Z)
  | TrainingCallback (is_first is_last : bool).

(** The object store, the one network under study, and the log of calls to
    collaborators. *)
Record State := mkState {
  layers : LayerId → Layer.t;
  net : Network.t;
  calls : list Event }.

Definition M (A : Type) : Type := State → Result A * State.

Definition ret {A} (a : A) : M A := λ s, (Ok a, s).
Definition raise {A} (e : Exn) : M A := λ s, (Raise e, s).
Definition bind {A B} (m : M A) (k : A → M B) : M B :=
  λ s, match m s with
       | (Ok a, s') => k a s'
       | (Raise e, s') => (Raise e, s')
       | (OutOfFuel, s') => (OutOfFuel, s')
       end.
Definition lift {A} (r : Result A) : M A := λ s, (r, s).
Definition get : M State := λ s, (Ok s, s).
Definition modify (f : State → State) : M unit := λ s, (Ok tt, f s).

Notation "x <- m ;; k" := (bind m (λ x, k))
  (at level 20, m at level 99, k at level 200, only parsing).
Notation "m ;; k" := (bind m (λ _, k))
  (at level 100, k at level 200, only parsing, right associativity).

(** [try: body except NetworkError as e: handler e]. *)
Definition try_except_NetworkError {A} (body : M A) (handler : NetworkErrorMsg → M A) : M A :=
  λ s, match body s with
       | (Raise (NetworkError msg), s') => handler msg s'
       | r => r
       end.

(** [try: body except ValueError: handler]. *)
Definition try_except_ValueError {A} (body : Result A) (handler : Result A) : Result A :=
  match body with
  | Raise (ValueError _) => handler
  | r => r
  end.

Definition set_layers (f : LayerId → Layer.t) (s : State) : State :=
  mkState f (net s) (calls s).
Definition set_net (n : Network.t) (s : State) : State :=
  mkState (layers s) n (calls s).
Definition log (e : Event) (s : State) : State :=
  mkState (layers s) (net s) (calls s ++ [e]).

Definition get_layer (lyr : LayerId) : M Layer.t := λ s, (Ok (layers s lyr), s).
Definition modify_layer (lyr : LayerId) (f : Layer.t → Layer.t) : M unit :=
  modify (λ s, set_layers (alter f lyr (layers s)) s).
Definition get_net : M Network.t := λ s, (Ok (net s), s).
Definition modify_net (f : Network.t → Network.t) : M unit :=
  modify (λ s, set_net (f (net s)) s).

(** [for x in xs: body x]. *)
Fixpoint for_each {A} (xs : list A) (body : A → M unit) : M unit :=
  match xs with
  | [] => ret tt
  | x :: xs' => body x ;; for_each xs' body
  end.

(** ** Collaborators of the scheduler *)

(** What the network consumes without owning: the order in which a set
    yields its elements, the [evolve] method of the layers (abstract in
    [layers/layer.py]) and [TimeSeries.clip]. A layer's [evolve] receives its
    input and a number of its own time steps, and returns the layer as it
    leaves it together with its output, or raises. *)
Class Collaborators := {
  set_iter : gset LayerId → list LayerId;
  layer_evolve : Layer.t → option TimeSeries → Z → Result (Layer.t * TimeSeries);
  clip : TimeSeries → Decimal → Decimal → TimeSeries }.

(** All that is known of the order of a set: every element comes once. *)
Definition set_iter_spec `{Collaborators} : Prop :=
  ∀ s : gset LayerId, set_iter s ≡ₚ elements s.

Section network.

Context `{Collaborators}.

(** *** Evolution order *)

(** [x in remaining_lyrs] for [x] a layer or [None]. *)
Definition in_set (x : option LayerId) (remaining_lyrs : gset LayerId) : bool :=
  match x with
  | Some p => bool_decide (p ∈ remaining_lyrs)
  | None => false
  end.

(** The inner function of [_set_evolution_order]; [candidates] is the
    copy of the remaining layers in the order in which [pop] empties it. *)
Fixpoint find_next_layer (store : LayerId → Layer.t) (remaining_lyrs : gset LayerId)
    (candidates : list LayerId) : Result LayerId :=
  match candidates with
  | [] => Raise (NetworkError CannotResolveEvolutionOrder)
  | candidate_lyr :: candidates' =>
      if in_set (Layer.pre_layer (store candidate_lyr)) remaining_lyrs
      then find_next_layer store remaining_lyrs candidates'
      else Ok candidate_lyr
  end.

(** The [while bool(remaining_lyrs)] loop. *)
Fixpoint evolution_order_loop (fuel : nat) (store : LayerId → Layer.t)
    (remaining_lyrs : gset LayerId) (order : list LayerId) : Result (list LayerId) :=
  if bool_decide (remaining_lyrs = ∅) then Ok order
  else match fuel with
       | O => OutOfFuel
       | S fuel' =>
           let! next_lyr := find_next_layer store remaining_lyrs (set_iter remaining_lyrs) in
           if bool_decide (next_lyr ∈ remaining_lyrs)
           then evolution_order_loop fuel' store (remaining_lyrs ∖ {[next_lyr]})
                                     (order ++ [next_lyr])
           else Raise KeyError
       end.

Definition _set_evolution_order : M (list LayerId) :=
  λ s, (evolution_order_loop (size (Network.layerset (net s))) (layers s)
                             (Network.layerset (net s)) [], s).

(** *** Global time step *)

(** The loop folding [lcm] over [dt_list[1:]]. *)
Fixpoint lcm_loop (t_lcm : Decimal) (dts : list Decimal) : Result Decimal :=
  match dts with
  | [] => Ok t_lcm
  | dt :: dts' =>
      let! t_lcm' := try_except_ValueError (lcm t_lcm dt)
                                           (Raise (ValueError DtTooSmallForLayers)) in
      lcm_loop t_lcm' dts'
  end.

(** [np.amax] of a list whose first element is [d]. *)
Definition np_amax (d : Decimal) (dts : list Decimal) : Decimal :=
  foldl dec_max d dts.

(** [any(not is_multiple(t_lcm, dt) for dt in dt_list)]. *)
Fixpoint any_not_multiple (t_lcm : Decimal) (dt_list : list Decimal) : Result bool :=
  match dt_list with
  | [] => Ok false
  | dt :: dts' =>
      let! m := is_multiple t_lcm dt in
      if negb m then Ok true else any_not_multiple t_lcm dts'
  end.

(** The branch of [_set_dt] that derives the time step from a non-empty
    [dt_list]: the value stored in [_dt], or the error raised. *)
Definition common_time_step (max_factor : Z) (dt0 : Decimal) (dts : list Decimal)
    : Result Decimal :=
  let! t_lcm := lcm_loop dt0 dts in
  let! unusable :=
    if dec_ltb (dec_mul (dec_of_Z max_factor) (np_amax dt0 dts)) t_lcm then Ok true
    else any_not_multiple t_lcm (dt0 :: dts) in
  if unusable then Raise (ValueError NoReasonableCommonTimeStep)
  else Ok t_lcm.

(** The last loop of [_set_dt]. *)
Definition set_timesteps_per_network_dt (lyr : LayerId) : M unit :=
  n <- get_net ;;
  l <- get_layer lyr ;;
  match Network._dt n with
  | None => raise TypeError
  | Some d =>
      if dec_is_zero (Layer.dt l) then raise ZeroDivisionError
      else modify_layer lyr (Layer.set__timesteps_per_network_dt
                               (round_quotient d (Layer.dt l)))
  end.

(** The check of one layer against a forced time step. *)
Definition check_forced_dt (lyr : LayerId) : M unit :=
  n <- get_net ;;
  l <- get_layer lyr ;;
  match Network._dt n with
  | None => raise InvalidOperation
  | Some d =>
      m <- lift (is_multiple d (Layer.dt l)) ;;
      if m then ret tt
      else raise (ValueError (DtNotMultipleOfLayerDt (Layer.name l)))
  end.

(** [_set_dt]; like the source it returns [None] on every path. *)
Definition _set_dt (max_factor : Z) : M (option Decimal) :=
  n <- get_net ;;
  s <- get ;;
  let lyrs := set_iter (Network.layerset n) in
  if Network._force_dt n then
    for_each lyrs check_forced_dt ;;
    for_each lyrs set_timesteps_per_network_dt ;;
    ret None
  else
    match (λ lyr, Layer.dt (layers s lyr)) <$> lyrs with
    | [] => ret None
    | dt0 :: dts =>
        t_lcm <- lift (common_time_step max_factor dt0 dts) ;;
        modify_net (Network.set__dt (Some t_lcm)) ;;
        for_each lyrs set_timesteps_per_network_dt ;;
        ret None
    end.

(** *** Connections *)

Definition connect (pre_layer post_layer : LayerId) : M unit :=
  pre <- get_layer pre_layer ;;
  post <- get_layer post_layer ;;
  if bool_decide (Layer.size pre ≠ Layer.size_in post) then
    raise (NetworkError (DimensionsDoNotMatch (Layer.name pre) (Layer.size pre)
                                              (Layer.name post) (Layer.size_in post)))
  else if bool_decide (Layer.output_type pre ≠ Layer.input_type post) then
    raise (NetworkError (ClassesDoNotMatch (Layer.name pre) (Layer.output_type pre)
                                           (Layer.name post) (Layer.input_type post)))
  else
    modify_layer post_layer (Layer.set_pre_layer (Some pre_layer)) ;;
    try_except_NetworkError
      (order <- _set_evolution_order ;;
       modify_net (Network.set_evol_order order))
      (λ e,
         modify_layer post_layer (Layer.set_pre_layer None) ;;
         raise (NetworkError e)).

(** The first loop of [remove_layer]. *)
Definition clear_pre_layer (del_layer lyr : LayerId) : M unit :=
  l <- get_layer lyr ;;
  if bool_decide (Layer.pre_layer l = Some del_layer)
  then modify_layer lyr (Layer.set_pre_layer None)
  else ret tt.

Definition remove_layer (del_layer : LayerId) : M unit :=
  n <- get_net ;;
  for_each (set_iter (Network.layerset n)) (clear_pre_layer del_layer) ;;
  (if bool_decide (del_layer ∈ Network.layerset n)
   then modify_net (Network.set_layerset (Network.layerset n ∖ {[del_layer]}))
   else raise KeyError) ;;
  new_dt <- _set_dt 100 ;;
  modify_net (Network.set__dt new_dt) ;;
  order <- _set_evolution_order ;;
  modify_net (Network.set_evol_order order).

(** *** Adding layers *)

(** [int(s)] and [str(i)] on plain decimal numerals. *)
Definition py_int (s : string) : option Z := Z.of_int <$> NilZero.int_of_string s.
Definition py_str (i : Z) : string := NilZero.string_of_int (Z.to_int i).

(** [name.split("_")]. *)
Fixpoint split_underscore (name : string) : list string :=
  match name with
  | EmptyString => [EmptyString]
  | String c rest =>
      if Ascii.eqb c "_"%char then EmptyString :: split_underscore rest
      else match split_underscore rest with
           | [] => [String c EmptyString]
           | w :: ws => String c w :: ws
           end
  end.

Definition _new_name (name : string) : string :=
  let splitted_name := split_underscore name in
  if (1 <? length splitted_name)%nat then
    match mbind (M := option) py_int (splitted_name !! (length splitted_name - 1)%nat) with
    | Some i =>
        String.concat "_" (take (length splitted_name - 1)%nat splitted_name
                           ++ [py_str (i + 1)])
    | None => (name +:+ "_0")%string
    end
  else (name +:+ "_0")%string.

(** Names bound on every [Network] object by its class and by the first
    lines of [__init__]. Attributes that come to exist later ([_dt],
    [evol_order], [input_layer], [output_layer]) and those inherited from
    [object] are not tracked: layers so named are outside the model. *)
Definition own_attributes : list string :=
  ["add_layer"; "_new_name"; "remove_layer"; "connect"; "disconnect";
   "_set_evolution_order"; "_set_dt"; "_fix_duration"; "evolve"; "train";
   "stream"; "_check_sync"; "reset_time"; "reset_state"; "reset_all"; "t";
   "dt"; "save"; "load"; "add_layer_class"; "_timestep"; "layerset";
   "_force_dt"]%string.

Definition hasattr (n : Network.t) (name : string) : bool :=
  bool_decide (name ∈ own_attributes) || bool_decide (is_Some (Network.attrs n !! name)).

(** [while hasattr(self, newname): newname = self._new_name(newname)]. *)
Fixpoint find_new_name (fuel : nat) (n : Network.t) (newname : string) : Result string :=
  if hasattr n newname then
    match fuel with
    | O => OutOfFuel
    | S fuel' => find_new_name fuel' n (_new_name newname)
    end
  else Ok newname.

(** [np.isclose(a, b)] with its default tolerances. *)
Definition np_isclose (a b : Decimal) : bool :=
  dec_leb (dec_abs (dec_sub a b))
          (dec_add (mkDecimal 1 (-8)) (dec_mul (mkDecimal 1 (-5)) (dec_abs b))).

Definition add_layer (lyr : LayerId) (input_layer output_layer : option LayerId)
    (external_input : bool) : M LayerId :=
  l <- get_layer lyr ;;
  n <- get_net ;;
  if negb (np_isclose (Layer.t_ l) (Network.t_ n)) then raise AssertionError
  else if hasattr n (Layer.name l)
          && bool_decide (Network.attrs n !! Layer.name l = Some lyr)
  then ret lyr
  else
    (if hasattr n (Layer.name l) then
       newname <- lift (find_new_name (S (length own_attributes + size (Network.attrs n)))
                                      n (Layer.name l)) ;;
       modify_layer lyr (Layer.set_name newname)
     else ret tt) ;;
    modify_layer lyr (Layer.set_pre_layer None) ;;
    modify_layer lyr (Layer.set_external_input external_input) ;;
    l' <- get_layer lyr ;;
    modify_net (λ n, Network.set_attrs (<[Layer.name l' := lyr]> (Network.attrs n)) n) ;;
    modify_net (λ n, Network.set_layerset ({[lyr]} ∪ Network.layerset n) n) ;;
    _set_dt 100 ;;
    (match input_layer with
     | Some i => connect i lyr
     | None => ret tt
     end) ;;
    (match output_layer with
     | Some o => connect lyr o
     | None => ret tt
     end) ;;
    (match input_layer, output_layer with
     | None, None =>
         order <- _set_evolution_order ;;
         modify_net (Network.set_evol_order order)
     | _, _ => ret tt
     end) ;;
    ret lyr.

(** The loop of [__init__] over [layers[1:]]; returns the last layer. *)
Fixpoint add_in_series (recent_layer : LayerId) (lyrs : list LayerId) : M LayerId :=
  match lyrs with
  | [] => ret recent_layer
  | lyr :: lyrs' =>
      add_layer lyr (Some recent_layer) None false ;;
      add_in_series lyr lyrs'
  end.

(** The constructor [Network.__init__] applied to the layers [lyrs] and
    to the optional forced time step [dt]. *)
Definition __init__ (lyrs : list LayerId) (dt : option Decimal) : M unit :=
  modify (set_net (Network.mk 0 ∅ None false [] ∅ None None)) ;;
  (match dt with
   | Some d =>
       if dec_ltb (dec_of_Z 0) d
       then modify_net (λ n, Network.mk (Network._timestep n) (Network.layerset n)
                                        (Some d) true (Network.evol_order n)
                                        (Network.attrs n) (Network.input_layer n)
                                        (Network.output_layer n))
       else raise AssertionError
   | None => ret tt
   end) ;;
  match lyrs with
  | lyr0 :: lyrs' =>
      first <- add_layer lyr0 None None true ;;
      modify_net (Network.set_input_layer (Some first)) ;;
      recent_layer <- add_in_series lyr0 lyrs' ;;
      modify_net (Network.set_output_layer (Some recent_layer))
  | [] =>
      order <- _set_evolution_order ;;
      modify_net (Network.set_evol_order order)
  end.

(** *** Synchrony *)

(** The loop of [_check_sync], from the value of [in_sync] so far. *)
Fixpoint check_sync_loop (store : LayerId → Layer.t) (timestep : Z)
    (order : list LayerId) (in_sync : bool) : bool :=
  match order with
  | [] => in_sync
  | lyr :: order' =>
      check_sync_loop store timestep order'
        (if bool_decide (Layer._timestep (store lyr)
                         ≠ timestep * Layer._timesteps_per_network_dt (store lyr))
         then false else in_sync)
  end.

Definition _check_sync : M bool :=
  s <- get ;;
  if check_sync_loop (layers s) (Network._timestep (net s))
                     (Network.evol_order (net s)) true
  then ret true
  else raise (NetworkError LayersNotInSync).

(** *** Evolution *)

Definition float_floor_div (a : Decimal) (b : option Decimal) : M Z :=
  match b with
  | None => raise TypeError
  | Some d => if dec_is_zero d then raise ZeroDivisionError
              else ret (floor_quotient a d)
  end.

(** The number of global time steps of [evolve] and [train]. *)
Definition resolve_num_timesteps (ts_input : option TimeSeries)
    (duration_arg : option Decimal) (num_timesteps : option Z) : M Z :=
  match num_timesteps with
  | Some n => ret n
  | None =>
      n <- get_net ;;
      d <- match duration_arg with
           | Some d => ret d
           | None =>
               match ts_input with
               | None => raise AssertionError
               | Some ts =>
                   if periodic ts then ret (duration ts)
                   else let d := dec_sub (t_stop ts) (Network.t_ n) in
                        if dec_ltb (dec_of_Z 0) d then ret d
                        else raise AssertionError
               end
           end ;;
      float_floor_div d (Network._dt n)
  end.

(** The trial timings carried by the external input, if any. *)
Definition trial_starts_of (ts_input : option TimeSeries) : option (list Decimal) :=
  match ts_input with
  | Some ts =>
      match trial_starts ts with
      | Some v => Some v
      | None => trial_start_times ts
      end
  | None => None
  end.

(** The body of the loop of [evolve] over [evol_order]. *)
Definition evolve_layer (ts_input : option TimeSeries) (num_timesteps : Z)
    (trial : option (list Decimal)) (signal_dict : gmap string (option TimeSeries))
    (lyr : LayerId) : M (gmap string (option TimeSeries)) :=
  l <- get_layer lyr ;;
  ts_current_input <-
    (if Layer.external_input l then ret ts_input
     else match Layer.pre_layer l with
          | Some pre =>
              p <- get_layer pre ;;
              match signal_dict !! Layer.name p with
              | Some ts => ret ts
              | None => raise KeyError
              end
          | None => ret None
          end) ;;
  let layer_timesteps := num_timesteps * Layer._timesteps_per_network_dt l in
  modify (log (LayerEvolve lyr layer_timesteps)) ;;
  r <- lift (layer_evolve l ts_current_input layer_timesteps) ;;
  modify_layer lyr (λ _, r.1) ;;
  let out := match trial with
             | Some v => set_trial_starts (Some v) r.2
             | None => r.2
             end in
  let out := match ts_name out with
             | None => set_ts_name (Some (Layer.name r.1)) out
             | Some _ => out
             end in
  ret (<[Layer.name r.1 := Some out]> signal_dict).

Fixpoint evolve_layers (ts_input : option TimeSeries) (num_timesteps : Z)
    (trial : option (list Decimal)) (signal_dict : gmap string (option TimeSeries))
    (order : list LayerId) : M (gmap string (option TimeSeries)) :=
  match order with
  | [] => ret signal_dict
  | lyr :: order' =>
      signal_dict' <- evolve_layer ts_input num_timesteps trial signal_dict lyr ;;
      evolve_layers ts_input num_timesteps trial signal_dict' order'
  end.

(** [evolve] down to the update of the network time, before its closing
    [_check_sync]. *)
Definition evolve_and_advance (ts_input : option TimeSeries)
    (duration_arg : option Decimal) (num_timesteps : option Z)
    : M (gmap string (option TimeSeries)) :=
  num_timesteps <- resolve_num_timesteps ts_input duration_arg num_timesteps ;;
  let ts_input :=
    match ts_input with
    | Some ts => Some (match ts_name ts with
                       | None => set_ts_name (Some "External input"%string) ts
                       | Some _ => ts
                       end)
    | None => None
    end in
  let trial := trial_starts_of ts_input in
  let signal_dict : gmap string (option TimeSeries) := {[ "external"%string := ts_input ]} in
  _check_sync ;;
  n <- get_net ;;
  signal_dict <- evolve_layers ts_input num_timesteps trial signal_dict
                               (Network.evol_order n) ;;
  modify_net (λ n, Network.set__timestep (Network._timestep n + num_timesteps) n) ;;
  ret signal_dict.

Definition evolve (ts_input : option TimeSeries) (duration_arg : option Decimal)
    (num_timesteps : option Z) : M (gmap string (option TimeSeries)) :=
  signal_dict <- evolve_and_advance ts_input duration_arg num_timesteps ;;
  _check_sync ;;
  ret signal_dict.

(** *** Resets *)

Definition reset_all : M unit :=
  n <- get_net ;;
  for_each (set_iter (Network.layerset n)) (λ lyr, modify_layer lyr Layer.reset_all) ;;
  modify_net (Network.set__timestep 0).

(** *** Training *)

Definition sum_Z (v : list Z) : Z := foldr Z.add 0 v.

(** [np.ceil(a / b)] for integers, [b] not zero. *)
Definition ceil_div (a b : Z) : Z := - ((- a) / b).

Definition np_repeat (x n : Z) : Result (list Z) :=
  if n <? 0 then Raise (ValueError NegativeDimensions)
  else Ok (replicate (Z.to_nat n) x).

(** The same number of steps for all batches, the last one set to what
    remains of [num_timesteps]. *)
Definition uniform_batches (num_timesteps num_ts_single_batch : Z) : Result (list Z) :=
  if num_ts_single_batch =? 0 then Raise ZeroDivisionError
  else
    let num_batches := ceil_div num_timesteps num_ts_single_batch in
    let! v_ts_batch := np_repeat num_ts_single_batch num_batches in
    match v_ts_batch with
    | [] => Raise IndexError
    | _ :: _ =>
        let front := take (length v_ts_batch - 1)%nat v_ts_batch in
        Ok (front ++ [num_timesteps - sum_Z front])
    end.

(** [np.where(np.cumsum(v_ts_batch) > num_timesteps)[0][0]], with [acc] the
    sum of the entries already passed and [idx] their number. *)
Fixpoint first_idx_beyond (num_timesteps acc : Z) (idx : nat) (v_ts_batch : list Z)
    : Result nat :=
  match v_ts_batch with
  | [] => Raise IndexError
  | x :: rest =>
      if num_timesteps <? acc + x then Ok idx
      else first_idx_beyond num_timesteps (acc + x) (S idx) rest
  end.

(** "Make sure time steps add up to num_timesteps". *)
Definition fit_batches (num_timesteps : Z) (v_ts_batch : list Z) : Result (list Z) :=
  let diff_ts := num_timesteps - sum_Z v_ts_batch in
  if 0 <? diff_ts then Ok (v_ts_batch ++ [diff_ts])
  else if diff_ts <? 0 then
    let! idx := first_idx_beyond num_timesteps 0 0 v_ts_batch in
    Ok (take (idx + 1)%nat v_ts_batch)
  else Ok v_ts_batch.

(** The batch sizes of [train]. A scalar argument is the list of its one
    value ([np.size(x) == 1] holds of both). *)
Definition batch_sizes (num_timesteps : Z) (batch_durs : option (list Decimal))
    (nums_ts_batch : option (list Z)) : M (list Z) :=
  n <- get_net ;;
  v_ts_batch <-
    match nums_ts_batch with
    | None =>
        match batch_durs with
        | None => ret [num_timesteps]
        | Some [batch_dur] =>
            num_ts_single_batch <- float_floor_div batch_dur (Network._dt n) ;;
            lift (uniform_batches num_timesteps num_ts_single_batch)
        | Some durs =>
            (fix convert (durs : list Decimal) : M (list Z) :=
               match durs with
               | [] => ret []
               | d :: durs' =>
                   x <- float_floor_div d (Network._dt n) ;;
                   xs <- convert durs' ;;
                   ret (x :: xs)
               end) durs
        end
    | Some [num_ts_single_batch] =>
        lift (uniform_batches num_timesteps num_ts_single_batch)
    | Some nums => ret nums
    end ;;
  lift (fit_batches num_timesteps v_ts_batch).

(** The inner function [next_batch] of [train]. *)
Definition next_batch
    (training_fct : gmap string (option TimeSeries) → bool → bool → M unit)
    (ts_input : option TimeSeries) (batch_num : nat) (current_ts : Z)
    (num_batches : nat) : M unit :=
  n <- get_net ;;
  clipped <-
    match ts_input with
    | None => raise AttributeError
    | Some ts =>
        match Network._dt n with
        | None => raise TypeError
        | Some d =>
            ret (clip ts (Network.t_ n)
                      (dec_add (Network.t_ n) (dec_mul (dec_of_Z current_ts) d)))
        end
    end ;;
  signal_dict <- evolve (Some clipped) None (Some current_ts) ;;
  let is_first := bool_decide (batch_num = 0%nat) in
  let is_last := bool_decide (batch_num = (num_batches - 1)%nat) in
  modify (log (TrainingCallback is_first is_last)) ;;
  training_fct signal_dict is_first is_last.

(** [for batch_num, current_ts in enumerate(v_ts_batch)], from [batch_num]
    on. *)
Fixpoint train_loop
    (training_fct : gmap string (option TimeSeries) → bool → bool → M unit)
    (ts_input : option TimeSeries) (batch_num : nat) (v_ts_batch : list Z)
    (num_batches : nat) : M unit :=
  match v_ts_batch with
  | [] => ret tt
  | current_ts :: rest =>
      next_batch training_fct ts_input batch_num current_ts num_batches ;;
      train_loop training_fct ts_input (S batch_num) rest num_batches
  end.

Definition train
    (training_fct : gmap string (option TimeSeries) → bool → bool → M unit)
    (ts_input : option TimeSeries) (duration_arg : option Decimal)
    (batch_durs : option (list Decimal)) (num_timesteps : option Z)
    (nums_ts_batch : option (list Z)) : M unit :=
  num_timesteps <- resolve_num_timesteps ts_input duration_arg num_timesteps ;;
  v_ts_batch <- batch_sizes num_timesteps batch_durs nums_ts_batch ;;
  train_loop training_fct ts_input 0 v_ts_batch (length v_ts_batch).

(** *** Further methods *)

Definition disconnect (pre_layer post_layer : LayerId) : M unit :=
  post <- get_layer post_layer ;;
  if bool_decide (Layer.pre_layer post = Some pre_layer) then
    modify_layer post_layer (Layer.set_pre_layer None) ;;
    try_except_NetworkError
      (order <- _set_evolution_order ;;
       modify_net (Network.set_evol_order order))
      (λ e, raise (NetworkError e))
  else ret tt.

Definition reset_state : M unit :=
  n <- get_net ;;
  for_each (set_iter (Network.layerset n)) (λ lyr, modify_layer lyr Layer.reset_state).

End network.

(** ** A concrete setting *)

(** Layers whose [evolve] advances their clock by the steps asked for and
    returns an unnamed, empty series; sets yield their elements in the
    order of [elements], or in the opposite order when [reversed]. *)
Definition silent : TimeSeries :=
  mkTimeSeries None false (dec_of_Z 0) (dec_of_Z 0) None None [].

Definition counting_layers (reversed : bool) : Collaborators :=
  {| set_iter := λ s, if reversed then reverse (elements s) else elements s;
     layer_evolve := λ l _ n, Ok (Layer.set__timestep (Layer._timestep l + n) l, silent);
     clip := λ ts _ _, ts |}.

(** A layer as its constructor leaves it, before any network adopts it. *)
Definition new_layer (name : string) (size_in size : Z) (dt : Decimal)
    (input_type output_type : string) : Layer.t :=
  Layer.mk name size_in size dt 0 (replicate (Z.to_nat size) 0) input_type output_type
           None false 0.

Definition store_of (lyrs : list Layer.t) (default : Layer.t) : LayerId → Layer.t :=
  λ i, nth i lyrs default.

Definition no_network : Network.t := Network.mk 0 ∅ None false [] ∅ None None.

(** The two layers of the scenario: [A] with [dt = 0.1] feeds [B] with
    [dt = 0.02]. *)
Definition layer_A : Layer.t :=
  new_layer "A" 2 3 (mkDecimal 1 (-1)) "TSContinuous" "TSContinuous".
Definition layer_B : Layer.t :=
  new_layer "B" 3 1 (mkDecimal 2 (-2)) "TSContinuous" "TSContinuous".

Definition two_layers : State :=
  mkState (store_of [layer_A; layer_B] layer_A) no_network [].

(** Three layers of one unit each, to be chained as [0 -> 1 -> 2]. *)
Definition unit_layer (name : string) : Layer.t :=
  new_layer name 1 1 (mkDecimal 1 (-1)) "TSContinuous" "TSContinuous".

Definition three_layers : State :=
  mkState (store_of [unit_layer "C"; unit_layer "A"; unit_layer "B"] (unit_layer "C"))
          no_network [].

(** A layer that emits events where [layer_B] expects a continuous signal,
    and one of the wrong width. *)
Definition layer_spiking : Layer.t :=
  new_layer "S" 2 3 (mkDecimal 1 (-1)) "TSContinuous" "TSEvent".
Definition layer_wide : Layer.t :=
  new_layer "W" 2 7 (mkDecimal 1 (-1)) "TSContinuous" "TSContinuous".

Definition mismatched_layers : State :=
  mkState (store_of [layer_spiking; layer_B; layer_wide] layer_B) no_network [].

(** The networks [Network(A, B)] and [Network(C, A, B)] built by the
    constructor from these layers. *)
Definition network_AB (reversed : bool) : State :=
  (@__init__ (counting_layers reversed) [0%nat; 1%nat] None two_layers).2.

Definition network_CAB (reversed : bool) : State :=
  (@__init__ (counting_layers reversed) [0%nat; 1%nat; 2%nat] None three_layers).2.

(** The outcome of [evolve(num_timesteps=2)] on [Network(A, B)]. *)
Definition evolved_AB (reversed : bool) : Result (gmap string (option TimeSeries)) * State :=
  @evolve (counting_layers reversed) None None (Some 2) (network_AB reversed).

(** Layers whose [evolve] returns without advancing their clock, and
    [Network(A, B)] built from such layers. *)
Definition lazy_layers : Collaborators :=
  {| set_iter := elements;
     layer_evolve := λ l _ _, Ok (l, silent);
     clip := λ ts _ _, ts |}.

Definition lazy_network_AB : State :=
  (@__init__ lazy_layers [0%nat; 1%nat] None two_layers).2.

(** [Network(A, B)] after [A.pre_layer = B] has been assigned behind the
    back of the network: [A] and [B] feed each other. *)
Definition cyclic_AB : State :=
  set_layers (alter (Layer.set_pre_layer (Some 1%nat)) 0%nat (layers (network_AB false)))
             (network_AB false).


(** A training callback that leaves the network alone. *)
Definition idle_callback : gmap string (option TimeSeries) → bool → bool → M unit :=
  λ _ _ _, ret tt.

(** ** Vocabulary of the properties *)

(** [g] divides [a]: [a] is an integer number of times [g]. *)
Definition dec_divides (g a : Decimal) : Prop :=
  ∃ k : Z, align (common_expo g a) a = k * align (common_expo g a) g.

(** The numerator of [d] on the grid of [decimal_base], and the time steps
    that lie on this grid: positive whole multiples of [decimal_base]. *)
Definition grid_num (d : Decimal) : Z := np_round (div_decimal_base d).

Definition on_grid (d : Decimal) : Prop :=
  0 < grid_num d ∧ dec_eqb d (mkDecimal (grid_num d) (-7)) = true.

(** The time steps of the member layers, in the order of iteration. *)
Definition layer_dts `{Collaborators} (s : State) : list Decimal :=
  (λ lyr, Layer.dt (layers s lyr)) <$> set_iter (Network.layerset (net s)).

(** The predecessor relation on the layer set: [y] is the [pre_layer] of
    [x], both being members. *)
Definition pre_edge (store : LayerId → Layer.t) (V : gset LayerId) : relation LayerId :=
  λ x y, x ∈ V ∧ y ∈ V ∧ Layer.pre_layer (store x) = Some y.

Definition acyclic (store : LayerId → Layer.t) (V : gset LayerId) : Prop :=
  ∀ x, ¬ tc (pre_edge store V) x x.

Definition has_cycle (store : LayerId → Layer.t) (V : gset LayerId) : Prop :=
  ∃ x, tc (pre_edge store V) x x.

(** In [order], the predecessor of a layer, when it is a member of [V],
    stands at a strictly smaller index. *)
Definition predecessors_first (store : LayerId → Layer.t) (V : gset LayerId)
    (order : list LayerId) : Prop :=
  ∀ (i : nat) (lyr p : LayerId),
    order !! i = Some lyr → Layer.pre_layer (store lyr) = Some p → p ∈ V →
    ∃ j : nat, (j < i)%nat ∧ order !! j = Some p.

(** The synchrony invariant for one layer. *)
Definition in_sync (s : State) (lyr : LayerId) : Prop :=
  Layer._timestep (layers s lyr)
  = Network._timestep (net s) * Layer._timesteps_per_network_dt (layers s lyr).

(** The invocations of the training callback in a log, each with its flags
    [is_first] and [is_last]. *)
Definition callbacks (log : list Event) : list (bool * bool) :=
  omap (λ e, match e with
             | TrainingCallback is_first is_last => Some (is_first, is_last)
             | LayerEvolve _ _ => None
             end) log.

(** The call returned: it neither raised nor ran out of fuel. *)
Definition returns {A} (r : Result A) : bool :=
  match r with Ok _ => true | _ => false end.

(** Two states hold the same objects, network and log. *)
Definition same_state (s1 s2 : State) : Prop :=
  (∀ lyr, layers s1 lyr = layers s2 lyr) ∧ net s1 = net s2 ∧ calls s1 = calls s2.

(** A layer and a network with the fields that [_set_dt] writes blanked
    out, and what a call may change when it touches nothing else. *)
Definition erase_ratio (l : Layer.t) : Layer.t := Layer.set__timesteps_per_network_dt 0 l.
Definition erase_dt (n : Network.t) : Network.t := Network.set__dt None n.

Definition time_step_frame (s s' : State) : Prop :=
  erase_dt (net s') = erase_dt (net s) ∧ calls s' = calls s
  ∧ ∀ lyr, erase_ratio (layers s' lyr) = erase_ratio (layers s lyr).




(** What the scheduler expects of a layer's [evolve]: it returns, having
    advanced the layer's clock by the number of steps asked for and changed
    nothing else on the layer but its state. *)
Definition layer_contract `{Collaborators} : Prop :=
  ∀ (l : Layer.t) (ts_input : option TimeSeries) (num_timesteps : Z),
    ∃ state' out,
      layer_evolve l ts_input num_timesteps
      = Ok (Layer.set__timestep (Layer._timestep l + num_timesteps)
              (Layer.set_state state' l), out).

(** Every layer of the evolution order that is fed by another layer comes
    after it in the order. *)
Definition inputs_available (s : State) : Prop :=
  ∀ (i : nat) (lyr p : LayerId),
    Network.evol_order (net s) !! i = Some lyr →
    Layer.external_input (layers s lyr) = false →
    Layer.pre_layer (layers s lyr) = Some p →
    ∃ j : nat, (j < i)%nat ∧ Network.evol_order (net s) !! j = Some p.






(** * Properties *)

(** ** Decimal arithmetic on a common grid *)

Lemma pow10_pos (k : Z) : 0 ≤ k → 0 < 10 ^ k.
Proof. intros. apply Z.pow_pos_nonneg; lia. Qed.






(** ** Euclid's algorithm on decimals *)









(** ** The evolution order resolver *)

Section evolution_order.

Context `{Collaborators}.
Variable store : LayerId → Layer.t.

Lemma in_set_true (x : LayerId) (R : gset LayerId) :
  in_set (Layer.pre_layer (store x)) R = true ↔
  ∃ p, Layer.pre_layer (store x) = Some p ∧ p ∈ R.
Proof.
  unfold in_set. destruct (Layer.pre_layer (store x)) as [p|].
  - rewrite bool_decide_eq_true. naive_solver.
  - naive_solver.
Qed.

Lemma find_next_layer_Ok (R : gset LayerId) (cands : list LayerId) (c : LayerId) :
  find_next_layer store R cands = Ok c →
  c ∈ cands ∧ in_set (Layer.pre_layer (store c)) R = false.
Proof.
  induction cands as [|x cands IH]; simpl; [done|].
  destruct (in_set (Layer.pre_layer (store x)) R) eqn:Hx.
  - intros Hc. destruct (IH Hc). split; [by right|done].
  - intros [= <-]. split; [by left|done].
Qed.

Lemma find_next_layer_outcome (R : gset LayerId) (cands : list LayerId) :
  (∃ c, find_next_layer store R cands = Ok c)
  ∨ (find_next_layer store R cands = Raise (NetworkError CannotResolveEvolutionOrder)
     ∧ ∀ c, c ∈ cands → in_set (Layer.pre_layer (store c)) R = true).
Proof.
  induction cands as [|x cands IH]; simpl.
  - right. split; [done|]. intros c Hc. by apply elem_of_nil in Hc.
  - destruct (in_set (Layer.pre_layer (store x)) R) eqn:Hx; [|by eauto].
    destruct IH as [?|[-> Hall]]; [by left|right].
    split; [done|]. intros c [->|Hc]%elem_of_cons; auto.
Qed.

(** Following predecessors from any remaining layer of an acyclic graph
    leads to a remaining layer whose predecessor is not remaining. *)
Lemma reachable_eligible (V : gset LayerId) (n : nat) :
  acyclic store V →
  ∀ (R : gset LayerId) (start : LayerId),
    size R = n → R ⊆ V → start ∈ R →
    ∃ c, c ∈ R ∧ rtc (pre_edge store V) start c
         ∧ in_set (Layer.pre_layer (store c)) R = false.
Proof.
  intros Hacyc. induction n as [|n IH]; intros R start Hsize HRS Hstart.
  { apply size_empty_inv in Hsize. set_solver. }
  destruct (in_set (Layer.pre_layer (store start)) R) eqn:Hpre.
  2:{ exists start. done. }
  apply in_set_true in Hpre as (y & Hy & HyR).
  assert (pre_edge store V start y) as Hedge by (split_and!; set_solver).
  assert (y ≠ start) as Hne.
  { intros ->. by apply (Hacyc start), tc_once. }
  destruct (IH (R ∖ {[start]}) y) as (c & Hc & Hreach & Helig).
  - rewrite size_difference, size_singleton by set_solver. lia.
  - set_solver.
  - set_solver.
  - exists c. split_and!.
    + set_solver.
    + by eapply rtc_l.
    + destruct (in_set (Layer.pre_layer (store c)) R) eqn:HcR; [|done].
      apply in_set_true in HcR as (p & Hp & HpR).
      destruct (decide (p = start)) as [->|Hps].
      * exfalso. apply (Hacyc start).
        eapply tc_l; [done|]. eapply tc_rtc_l; [done|].
        apply tc_once. split_and!; set_solver.
      * assert (in_set (Layer.pre_layer (store c)) (R ∖ {[start]}) = true) as Habs.
        { apply in_set_true. exists p. set_solver. }
        congruence.
Qed.

Hypothesis set_iter_ok : set_iter_spec.

Lemma elem_of_set_iter (R : gset LayerId) (x : LayerId) : x ∈ set_iter R ↔ x ∈ R.
Proof. rewrite (set_iter_ok R). apply elem_of_elements. Qed.

(** The loop over an acyclic graph: it returns the layers placed so far
    followed by the remaining ones in an order that puts predecessors
    first. *)
Lemma evolution_order_loop_acyclic (V : gset LayerId) :
  acyclic store V →
  ∀ (fuel : nat) (R : gset LayerId) (order : list LayerId),
    (size R ≤ fuel)%nat → R ⊆ V →
    ∃ tail, evolution_order_loop fuel store R order = Ok (order ++ tail)
            ∧ tail ≡ₚ elements R
            ∧ predecessors_first store R tail.
Proof.
  intros Hacyc. induction fuel as [|fuel IH]; intros R order Hsize HRS.
  - assert (R = ∅) as -> by (apply leibniz_equiv, size_empty_inv; lia).
    exists []. simpl. rewrite app_nil_r. split_and!; [done|by rewrite elements_empty|].
    intros i lyr p Hi. by rewrite lookup_nil in Hi.
  - simpl. case_bool_decide as Hempty.
    { subst R. exists []. rewrite app_nil_r.
      split_and!; [done|by rewrite elements_empty|].
      intros i lyr p Hi. by rewrite lookup_nil in Hi. }
    assert (∃ start, start ∈ R) as [start Hstart].
    { apply set_choose_L. done. }
    destruct (reachable_eligible V (size R) Hacyc R start eq_refl HRS Hstart)
      as (c0 & Hc0 & _ & Helig0).
    destruct (find_next_layer_outcome R (set_iter R)) as [[c Hc]|[_ Hall]].
    2:{ rewrite Hall in Helig0; [done|]. by apply elem_of_set_iter. }
    rewrite Hc. simpl.
    apply find_next_layer_Ok in Hc as [HcR Helig]. apply elem_of_set_iter in HcR.
    rewrite bool_decide_eq_true_2 by done.
    destruct (IH (R ∖ {[c]}) (order ++ [c])) as (tail & -> & Hperm & Hfirst).
    { rewrite size_difference, size_singleton by set_solver.
      assert (size R ≠ 0%nat); [|lia].
      intros Hz. apply size_empty_inv in Hz. set_solver. }
    { set_solver. }
    exists (c :: tail). split_and!.
    + by rewrite <- app_assoc.
    + rewrite Hperm. rewrite (union_difference_singleton_L c R) at 2 by done.
      symmetry. apply elements_union_singleton. set_solver.
    + intros i lyr p Hi Hp HpR. destruct i as [|i]; simpl in Hi.
      * injection Hi as ->. exfalso.
        assert (in_set (Layer.pre_layer (store lyr)) R = true); [|congruence].
        apply in_set_true. eauto.
      * destruct (decide (p = c)) as [->|Hne].
        { exists 0%nat. split; [lia|done]. }
        destruct (Hfirst i lyr p Hi Hp) as (j & Hj & Hjp); [set_solver|].
        exists (S j). split; [lia|done].
Qed.

(** With fuel for every remaining layer the loop returns or raises the
    resolver's [NetworkError]. *)
Lemma evolution_order_loop_outcome (fuel : nat) :
  ∀ (R : gset LayerId) (order : list LayerId),
    (size R ≤ fuel)%nat →
    (∃ order', evolution_order_loop fuel store R order = Ok order')
    ∨ evolution_order_loop fuel store R order
      = Raise (NetworkError CannotResolveEvolutionOrder).
Proof.
  induction fuel as [|fuel IH]; intros R order Hsize.
  - assert (R = ∅) as -> by (apply leibniz_equiv, size_empty_inv; lia).
    left. by exists order.
  - simpl. case_bool_decide as Hempty; [left; by exists order|].
    destruct (find_next_layer_outcome R (set_iter R)) as [[c Hc]|[-> _]];
      [|by right].
    rewrite Hc. simpl.
    apply find_next_layer_Ok in Hc as [HcR _]. apply elem_of_set_iter in HcR.
    rewrite bool_decide_eq_true_2 by done.
    apply IH. rewrite size_difference, size_singleton by set_solver.
    assert (size R ≠ 0%nat); [|lia].
    intros Hz. apply size_empty_inv in Hz. set_solver.
Qed.

(** A layer reached from a layer of a cycle leads back into the cycle: it
    has a predecessor, itself reached from the cycle. *)
Lemma cycle_closed (V : gset LayerId) (x y : LayerId) :
  tc (pre_edge store V) x x → rtc (pre_edge store V) x y →
  tc (pre_edge store V) y x.
Proof.
  intros Hcyc. revert y. apply rtc_ind_r; [done|]. intros y z Hxy Hyz IH.
  inversion IH as [? ? Hstep|? y' ? Hstep Hrest]; subst.
  - assert (z = x) as -> by (destruct Hyz as (_ & _ & Hz), Hstep as (_ & _ & Hx);
                             congruence).
    done.
  - assert (y' = z) as -> by (destruct Hyz as (_ & _ & Hz), Hstep as (_ & _ & Hx);
                              congruence).
    done.
Qed.

(** While the layers reached from a cycle all remain, the loop cannot
    return. *)
Lemma evolution_order_loop_cycle (V : gset LayerId) (x : LayerId) :
  tc (pre_edge store V) x x →
  ∀ (fuel : nat) (R : gset LayerId) (order order' : list LayerId),
    R ⊆ V →
    (∀ y, rtc (pre_edge store V) x y → y ∈ R) →
    evolution_order_loop fuel store R order ≠ Ok order'.
Proof.
  intros Hcyc. induction fuel as [|fuel IH]; intros R order order' HRS Hinv.
  - simpl. rewrite bool_decide_eq_false_2; [done|].
    specialize (Hinv x (rtc_refl _ _)). set_solver.
  - simpl. rewrite bool_decide_eq_false_2.
    2:{ specialize (Hinv x (rtc_refl _ _)). set_solver. }
    destruct (find_next_layer store R (set_iter R)) as [c| |] eqn:Hc; simpl; [|done..].
    apply find_next_layer_Ok in Hc as [HcR Helig].
    case_bool_decide; [|done].
    apply IH; [set_solver|].
    intros y Hy. specialize (Hinv y Hy) as HyR.
    assert (y ≠ c); [|set_solver]. intros ->.
    pose proof (cycle_closed V x c Hcyc Hy) as Hback.
    assert (∃ p, pre_edge store V c p) as [p Hp].
    { inversion Hback; eauto. }
    assert (in_set (Layer.pre_layer (store c)) R = true); [|congruence].
    apply in_set_true. exists p. split; [apply Hp|].
    apply Hinv. by eapply rtc_r.
Qed.

End evolution_order.

(** C3. Whatever the order in which sets yield their elements: on an acyclic
    predecessor relation [_set_evolution_order] returns a permutation of
    the layer set in which every layer stands strictly after its
    predecessor; on a relation with a cycle it raises the [NetworkError]
    "cannot resolve evolution order" and never runs out of fuel. *)
Theorem set_evolution_order_topological `{Collaborators} (s : State) :
  set_iter_spec →
  (acyclic (layers s) (Network.layerset (net s)) →
     ∃ order, _set_evolution_order s = (Ok order, s)
              ∧ order ≡ₚ elements (Network.layerset (net s))
              ∧ predecessors_first (layers s) (Network.layerset (net s)) order)
  ∧ (has_cycle (layers s) (Network.layerset (net s)) →
       _set_evolution_order s
       = (Raise (NetworkError CannotResolveEvolutionOrder), s)).
Proof.
  intros Hiter. unfold _set_evolution_order. split.
  - intros Hacyc.
    destruct (evolution_order_loop_acyclic (layers s) Hiter _ Hacyc
                (size (Network.layerset (net s))) (Network.layerset (net s)) [])
      as (tail & -> & Hperm & Hfirst); [done..|].
    exists tail. done.
  - intros [x Hcyc].
    destruct (evolution_order_loop_outcome (layers s) Hiter
                (size (Network.layerset (net s))) (Network.layerset (net s)) []
                (le_n _))
      as [[order' Hok]| ->]; [|done].
    exfalso.
    apply (evolution_order_loop_cycle (layers s) Hiter (Network.layerset (net s)) x Hcyc
             (size (Network.layerset (net s))) (Network.layerset (net s)) [] order');
      [done| |exact Hok].
    intros y Hy. apply rtc_tc in Hy as [<-|Hy].
      * inversion Hcyc as [? ? Hstep|? ? ? Hstep _]; apply Hstep.
      * clear -Hy. induction Hy as [? ? Hstep|]; [apply Hstep|done].
Qed.

Lemma set_evolution_order_topological_witness :
  (acyclic (layers (network_CAB false)) (Network.layerset (net (network_CAB false))) →
     ∃ order, @_set_evolution_order (counting_layers false) (network_CAB false)
              = (Ok order, network_CAB false)
              ∧ order ≡ₚ elements (Network.layerset (net (network_CAB false)))
              ∧ predecessors_first (layers (network_CAB false))
                                   (Network.layerset (net (network_CAB false))) order)
  ∧ (has_cycle (layers (network_CAB false)) (Network.layerset (net (network_CAB false))) →
       @_set_evolution_order (counting_layers false) (network_CAB false)
       = (Raise (NetworkError CannotResolveEvolutionOrder), network_CAB false)).
Proof.
  apply (@set_evolution_order_topological (counting_layers false) (network_CAB false)).
  intros s. reflexivity.
Defined.

(** The chain [C -> A -> B] is acyclic and is evolved in this order; the
    pair [A <-> B] has a cycle and no evolution order. *)
Example chain_acyclic :
  acyclic (layers (network_CAB false)) (Network.layerset (net (network_CAB false))).
Proof.
  assert (∀ x y, pre_edge (layers (network_CAB false))
                          (Network.layerset (net (network_CAB false))) x y →
                 (y < x)%nat) as Hdown.
  { intros x y (Hx & _ & Hpre).
    assert (Network.layerset (net (network_CAB false)) = {[0%nat; 1%nat; 2%nat]}) as Hset
      by (vm_compute; reflexivity).
    rewrite Hset, !elem_of_union, !elem_of_singleton in Hx.
    clear Hset.
    destruct Hx as [[-> | ->] | ->]; vm_compute in Hpre;
      [discriminate Hpre | injection Hpre as <-; constructor
      | injection Hpre as <-; constructor]. }
  assert (∀ x y, tc (pre_edge (layers (network_CAB false))
                              (Network.layerset (net (network_CAB false)))) x y →
                 (y < x)%nat) as Htc.
  { intros x y Hxy. induction Hxy as [x y Hstep|x y z Hstep _ IH].
    - by apply Hdown.
    - apply Hdown in Hstep. lia. }
  intros x Hx. apply Htc in Hx. lia.
Qed.

Example chain_order (reversed : bool) :
  (@_set_evolution_order (counting_layers reversed) (network_CAB reversed)).1
  = Ok [0%nat; 1%nat; 2%nat].
Proof. destruct reversed; vm_compute; reflexivity. Qed.

Example cyclic_AB_has_cycle :
  has_cycle (layers cyclic_AB) (Network.layerset (net cyclic_AB))
  ∧ (@_set_evolution_order (counting_layers false) cyclic_AB).1
    = Raise (NetworkError CannotResolveEvolutionOrder).
Proof.
  assert (Network.layerset (net cyclic_AB) = {[0%nat; 1%nat]}) as Hset
    by (vm_compute; reflexivity).
  split; [|vm_compute; reflexivity].
  exists 0%nat. apply tc_l with 1%nat; [|apply tc_once].
  - unfold pre_edge. rewrite Hset, !elem_of_union, !elem_of_singleton.
    split_and!; [by left|by right|vm_compute; reflexivity].
  - unfold pre_edge. rewrite Hset, !elem_of_union, !elem_of_singleton.
    split_and!; [by right|by left|vm_compute; reflexivity].
Qed.

(** ** Synchrony of layers and network *)

Lemma check_sync_loop_spec `{Collaborators} (s : State) (order : list LayerId) (b : bool) :
  check_sync_loop (layers s) (Network._timestep (net s)) order b = true
  ↔ b = true ∧ Forall (in_sync s) order.
Proof.
  revert b. induction order as [|lyr order IH]; intros b; cbn [check_sync_loop].
  - split; [intros ->; split; [reflexivity|constructor]|intros [Hb _]; exact Hb].
  - rewrite IH. case_bool_decide as Hne.
    + split; [by intros [? _]|]. intros [_ Hall].
      inversion Hall as [|? ? Hlyr Hrest]; subst. done.
    + split; intros [Hb Hall]; (split; [exact Hb|]).
      * constructor; [|exact Hall]. unfold in_sync.
        destruct (decide (Layer._timestep (layers s lyr)
                          = Network._timestep (net s)
                            * Layer._timesteps_per_network_dt (layers s lyr)));
          [done|by destruct Hne].
      * by inversion Hall.
Qed.

Lemma check_sync_outcome `{Collaborators} (s : State) :
  (Forall (in_sync s) (Network.evol_order (net s)) ∧ _check_sync s = (Ok true, s))
  ∨ (Exists (λ lyr, ¬ in_sync s lyr) (Network.evol_order (net s))
     ∧ _check_sync s = (Raise (NetworkError LayersNotInSync), s)).
Proof.
  unfold _check_sync, bind, get. simpl.
  destruct (check_sync_loop _ _ _ true) eqn:Hloop.
  - left. apply check_sync_loop_spec in Hloop as [_ Hall]. done.
  - right. split; [|done].
    apply not_Forall_Exists; [intros lyr; unfold in_sync; apply _|].
    intros Hall. assert (check_sync_loop (layers s) (Network._timestep (net s))
                           (Network.evol_order (net s)) true = true); [|congruence].
    by apply check_sync_loop_spec.
Qed.

(** C1. A call of [evolve] that returns leaves every layer of the evolution
    order in sync with the network; and when, once the layers are evolved
    and the network time advanced, some layer is out of sync, [evolve] raises
    the [NetworkError] "not all layers are in sync" from exactly that state,
    changing nothing in it. *)
Theorem evolve_checks_synchrony `{Collaborators} (ts_input : option TimeSeries)
    (duration_arg : option Decimal) (num_timesteps : option Z) (s : State) :
  (∀ signal_dict s',
     evolve ts_input duration_arg num_timesteps s = (Ok signal_dict, s') →
     Forall (in_sync s') (Network.evol_order (net s')))
  ∧ (∀ signal_dict s1,
       evolve_and_advance ts_input duration_arg num_timesteps s = (Ok signal_dict, s1) →
       Exists (λ lyr, ¬ in_sync s1 lyr) (Network.evol_order (net s1)) →
       evolve ts_input duration_arg num_timesteps s
       = (Raise (NetworkError LayersNotInSync), s1)).
Proof.
  split.
  - intros signal_dict s'. unfold evolve, bind at 1.
    destruct (evolve_and_advance _ _ _ s) as [[d| |] s1]; [|done..].
    unfold bind. destruct (check_sync_outcome s1) as [[Hall ->]|[_ ->]]; [|done].
    unfold ret. by intros [= _ <-].
  - intros signal_dict s1 Hrun Hbad. unfold evolve, bind at 1. rewrite Hrun.
    unfold bind. destruct (check_sync_outcome s1) as [[Hall _]|[_ ->]]; [|done].
    exfalso. apply Exists_exists in Hbad as (lyr & Hin & Hno).
    rewrite Forall_forall in Hall. by apply Hno, Hall.
Qed.

(** Layers that do not advance their clock are caught: [evolve] on
    [Network(A, B)] made of such layers evolves both, advances the network
    and raises. *)
Example lazy_layers_are_caught :
  returns (@evolve_and_advance lazy_layers None None (Some 2) lazy_network_AB).1 = true
  ∧ (@evolve lazy_layers None None (Some 2) lazy_network_AB).1
    = Raise (NetworkError LayersNotInSync)
  ∧ Network._timestep (net (@evolve lazy_layers None None (Some 2) lazy_network_AB).2) = 2
  ∧ Layer._timestep (layers (@evolve lazy_layers None None (Some 2) lazy_network_AB).2
                            0%nat) = 0.
Proof. split_and!; vm_compute; reflexivity. Qed.

(** ** Connecting layers *)

(** C8. When the size of the source differs from the input size of the
    target, or its output type from the input type of the target, [connect]
    raises a [NetworkError] whose message carries the names of both layers
    and the two attributes that differ, and returns the very state it was
    called in: no layer, and in particular no [pre_layer], has changed. *)
Theorem connect_mismatch_raises `{Collaborators} (s : State) (pre_layer post_layer : LayerId) :
  Layer.size (layers s pre_layer) ≠ Layer.size_in (layers s post_layer)
  ∨ Layer.output_type (layers s pre_layer) ≠ Layer.input_type (layers s post_layer) →
  ∃ msg, connect pre_layer post_layer s = (Raise (NetworkError msg), s)
         ∧ (Layer.size (layers s pre_layer) ≠ Layer.size_in (layers s post_layer) →
            msg = DimensionsDoNotMatch
                    (Layer.name (layers s pre_layer)) (Layer.size (layers s pre_layer))
                    (Layer.name (layers s post_layer)) (Layer.size_in (layers s post_layer)))
         ∧ (Layer.size (layers s pre_layer) = Layer.size_in (layers s post_layer) →
            msg = ClassesDoNotMatch
                    (Layer.name (layers s pre_layer))
                    (Layer.output_type (layers s pre_layer))
                    (Layer.name (layers s post_layer))
                    (Layer.input_type (layers s post_layer))).
Proof.
  intros Hbad. unfold connect, bind, get_layer, raise.
  destruct (decide (Layer.size (layers s pre_layer)
                    = Layer.size_in (layers s post_layer))) as [Hsize|Hsize].
  - destruct Hbad as [?|Htype]; [done|].
    rewrite bool_decide_eq_false_2 by (by intros ?).
    rewrite bool_decide_eq_true_2 by done.
    eexists. split; [done|]. split; [done|]. done.
  - rewrite bool_decide_eq_true_2 by done.
    eexists. split; [done|]. split; [done|]. done.
Qed.

Lemma connect_mismatch_raises_witness :
  ∃ msg, @connect (counting_layers false) 0%nat 1%nat mismatched_layers
         = (Raise (NetworkError msg), mismatched_layers)
         ∧ (Layer.size (layers mismatched_layers 0%nat)
            ≠ Layer.size_in (layers mismatched_layers 1%nat) →
            msg = DimensionsDoNotMatch
                    (Layer.name (layers mismatched_layers 0%nat))
                    (Layer.size (layers mismatched_layers 0%nat))
                    (Layer.name (layers mismatched_layers 1%nat))
                    (Layer.size_in (layers mismatched_layers 1%nat)))
         ∧ (Layer.size (layers mismatched_layers 0%nat)
            = Layer.size_in (layers mismatched_layers 1%nat) →
            msg = ClassesDoNotMatch
                    (Layer.name (layers mismatched_layers 0%nat))
                    (Layer.output_type (layers mismatched_layers 0%nat))
                    (Layer.name (layers mismatched_layers 1%nat))
                    (Layer.input_type (layers mismatched_layers 1%nat))).
Proof.
  apply (@connect_mismatch_raises (counting_layers false) mismatched_layers 0%nat 1%nat).
  right. vm_compute. discriminate.
Defined.

(** The two messages on the layers of [mismatched_layers]. *)
Example connect_type_mismatch_message :
  @connect (counting_layers false) 0%nat 1%nat mismatched_layers
  = (Raise (NetworkError (ClassesDoNotMatch "S" "TSEvent" "B" "TSContinuous")),
     mismatched_layers).
Proof. reflexivity. Qed.

Example connect_size_mismatch_message :
  @connect (counting_layers false) 2%nat 1%nat mismatched_layers
  = (Raise (NetworkError (DimensionsDoNotMatch "W" 7 "B" 3)), mismatched_layers).
Proof. reflexivity. Qed.

(** ** Resets *)

Lemma layer_reset_all_idempotent (l : Layer.t) :
  Layer.reset_all (Layer.reset_all l) = Layer.reset_all l.
Proof. by destruct l. Qed.

(** What a loop of [modify_layer] does to the store. *)
Lemma for_each_modify_layer (f : Layer.t → Layer.t) (lyrs : list LayerId) (s : State) :
  for_each lyrs (λ lyr, modify_layer lyr f) s
  = (Ok tt, set_layers (foldl (λ st lyr, alter f lyr st) (layers s) lyrs) s).
Proof.
  revert s. induction lyrs as [|lyr lyrs IH]; intros s.
  - by destruct s.
  - cbn [for_each foldl]. unfold bind at 1. unfold modify_layer at 1, modify.
    rewrite IH. by destruct s.
Qed.

(** Applying an idempotent update along a list: the layers of the list are
    updated, the others untouched, however often a layer is listed. *)
Lemma foldl_alter_idempotent (f : Layer.t → Layer.t) (lyrs : list LayerId) :
  (∀ l, f (f l) = f l) →
  ∀ (st : LayerId → Layer.t) (lyr : LayerId),
    foldl (λ st lyr, alter f lyr st) st lyrs lyr
    = if decide (lyr ∈ lyrs) then f (st lyr) else st lyr.
Proof.
  intros Hf. induction lyrs as [|x lyrs IH]; intros st lyr; cbn [foldl].
  - by rewrite decide_False by apply not_elem_of_nil.
  - rewrite IH. destruct (decide (lyr = x)) as [->|Hne].
    + rewrite fn_lookup_alter, Hf.
      rewrite (decide_True (P := x ∈ x :: lyrs)) by (apply elem_of_cons; by left).
      by destruct (decide (x ∈ lyrs)).
    + rewrite fn_lookup_alter_ne by done.
      destruct (decide (lyr ∈ lyrs)) as [Hin|Hnin].
      * by rewrite decide_True by (apply elem_of_cons; by right).
      * rewrite decide_False; [done|]. intros [?|?]%elem_of_cons; done.
Qed.

(** C9. [reset_all] returns, and calling it again changes nothing more:
    the second call ends in the same state as the first. After either, the
    timestep of the network is [0], and every member layer has timestep [0]
    and reports [t == 0]. *)
Theorem reset_all_idempotent `{Collaborators} (s : State) :
  set_iter_spec →
  ∃ s1 s2,
    reset_all s = (Ok tt, s1) ∧ reset_all s1 = (Ok tt, s2) ∧ same_state s2 s1
    ∧ Network._timestep (net s1) = 0
    ∧ ∀ lyr, lyr ∈ Network.layerset (net s1) →
             Layer._timestep (layers s1 lyr) = 0
             ∧ dec_eqb (Layer.t_ (layers s1 lyr)) (dec_of_Z 0) = true.
Proof.
  intros Hiter.
  assert (∀ s0, reset_all s0
                = (Ok tt, set_net (Network.set__timestep 0 (net s0))
                            (set_layers (foldl (λ st lyr, alter Layer.reset_all lyr st)
                                               (layers s0)
                                               (set_iter (Network.layerset (net s0)))) s0)))
    as Hrun.
  { intros s0. unfold reset_all, bind at 1, get_net. unfold bind.
    rewrite for_each_modify_layer. by destruct s0. }
  eexists _, _. split; [apply Hrun|]. split; [apply Hrun|].
  split; [|split].
  - split_and!; [|done..]. intros lyr. cbn.
    rewrite !(foldl_alter_idempotent _ _ layer_reset_all_idempotent).
    destruct (decide (lyr ∈ set_iter (Network.layerset (net s)))); [|done].
    apply layer_reset_all_idempotent.
  - done.
  - intros lyr Hin. cbn in Hin |- *.
    rewrite (foldl_alter_idempotent _ _ layer_reset_all_idempotent).
    rewrite decide_True.
    + split; [done|]. unfold Layer.t_, dec_eqb, dec_compare, align. cbn.
      by rewrite !Z.mul_0_l.
    + rewrite (Hiter (Network.layerset (net s))). by apply elem_of_elements.
Qed.

Lemma reset_all_idempotent_witness :
  ∃ s1 s2,
    @reset_all (counting_layers false) (network_AB false) = (Ok tt, s1)
    ∧ @reset_all (counting_layers false) s1 = (Ok tt, s2) ∧ same_state s2 s1
    ∧ Network._timestep (net s1) = 0
    ∧ ∀ lyr, lyr ∈ Network.layerset (net s1) →
             Layer._timestep (layers s1 lyr) = 0
             ∧ dec_eqb (Layer.t_ (layers s1 lyr)) (dec_of_Z 0) = true.
Proof.
  apply (@reset_all_idempotent (counting_layers false) (network_AB false)).
  intros s. reflexivity.
Defined.

(** ** The scenario of two layers *)

(** C6. [Network(A, B)] with [A.dt = 0.1] and [B.dt = 0.02], in either
    order of iteration of the layer set: [A] receives the external input and
    feeds [B]; the global time step is [0.1], with [1] step of [A] and [5]
    steps of [B] per network step. [evolve(num_timesteps=2)] then calls
    [A.evolve] for [2] steps and [B.evolve] for [10], in this order, moves the
    network timestep from [0] to [2], and ends in a state where [A] is at
    timestep [2], [B] at [10], and [_check_sync] passes. *)
Theorem two_layer_scenario (reversed : bool) :
  (@__init__ (counting_layers reversed) [0%nat; 1%nat] None two_layers).1 = Ok tt
  ∧ Layer.external_input (layers (network_AB reversed) 0%nat) = true
  ∧ Layer.pre_layer (layers (network_AB reversed) 1%nat) = Some 0%nat
  ∧ Network.evol_order (net (network_AB reversed)) = [0%nat; 1%nat]
  ∧ (∃ d, Network._dt (net (network_AB reversed)) = Some d
          ∧ dec_eqb d (mkDecimal 1 (-1)) = true)
  ∧ Layer._timesteps_per_network_dt (layers (network_AB reversed) 0%nat) = 1
  ∧ Layer._timesteps_per_network_dt (layers (network_AB reversed) 1%nat) = 5
  ∧ Network._timestep (net (network_AB reversed)) = 0
  ∧ returns (evolved_AB reversed).1 = true
  ∧ calls (evolved_AB reversed).2 = [LayerEvolve 0%nat 2; LayerEvolve 1%nat 10]
  ∧ Network._timestep (net (evolved_AB reversed).2) = 2
  ∧ Layer._timestep (layers (evolved_AB reversed).2 0%nat) = 2
  ∧ Layer._timestep (layers (evolved_AB reversed).2 1%nat) = 10
  ∧ (_check_sync (evolved_AB reversed).2).1 = Ok true.
Proof.
  destruct reversed;
    (split_and!;
       first [ vm_compute; reflexivity
             | eexists; split; vm_compute; reflexivity ]).
Qed.

(** ** A connection that closes a cycle *)

(** What [connect] leaves behind when the evolution order cannot be
    resolved: the network and all layers but the target as they were, and the
    target without predecessor, whatever it had before. *)
Lemma connect_cycle_outcome `{Collaborators} (s s' : State) (pre_layer post_layer : LayerId)
    (msg : NetworkErrorMsg) :
  Layer.size (layers s pre_layer) = Layer.size_in (layers s post_layer) →
  Layer.output_type (layers s pre_layer) = Layer.input_type (layers s post_layer) →
  connect pre_layer post_layer s = (Raise (NetworkError msg), s') →
  msg = CannotResolveEvolutionOrder
  ∧ net s' = net s
  ∧ Layer.pre_layer (layers s' post_layer) = None
  ∧ ∀ lyr, lyr ≠ post_layer → layers s' lyr = layers s lyr.
Proof.
  intros Hsize Htype. unfold connect, bind at 1 2, get_layer.
  rewrite bool_decide_eq_false_2 by (by intros ?).
  rewrite bool_decide_eq_false_2 by (by intros ?).
  unfold bind at 1, modify_layer at 1, modify, try_except_NetworkError.
  unfold bind at 1, _set_evolution_order. cbn [layers net set_layers].
  destruct (evolution_order_loop _ _ _ _) as [order|e|] eqn:Hloop; [done| |done].
  destruct e as [m| | | | | | | | |]; try done.
  unfold bind, modify_layer, modify, raise. intros [= -> <-]. cbn.
  split_and!; [|done| |].
  - clear -Hloop. revert Hloop.
    generalize (size (Network.layerset (net s))), (Network.layerset (net s)) at 2.
    generalize (@nil LayerId).
    intros order fuel R. revert R order. induction fuel as [|fuel IH]; intros R order; simpl.
    + case_bool_decide; done.
    + case_bool_decide; [done|].
      destruct (find_next_layer_outcome
                  (alter (Layer.set_pre_layer (Some pre_layer)) post_layer (layers s))
                  R (set_iter R)) as [[c ->]|[-> _]]; simpl.
      * case_bool_decide; [apply IH|done].
      * by intros [= <-].
  - by rewrite !fn_lookup_alter.
  - intros lyr Hne. by rewrite !fn_lookup_alter_ne.
Qed.

(** C4, on [Network(C, A, B)], a chain that feeds [A] from [C] and [B] from
    [A]: connecting [B] to [A] would close a cycle, [connect] raises, and [A]
    is left without the predecessor [C] it had before the call. *)
Theorem connect_cycle_loses_predecessor (reversed : bool) :
  Layer.pre_layer (layers (network_CAB reversed) 1%nat) = Some 0%nat
  ∧ Layer.pre_layer (layers (network_CAB reversed) 2%nat) = Some 1%nat
  ∧ (@connect (counting_layers reversed) 2%nat 1%nat (network_CAB reversed)).1
    = Raise (NetworkError CannotResolveEvolutionOrder)
  ∧ Layer.pre_layer
      (layers (@connect (counting_layers reversed) 2%nat 1%nat (network_CAB reversed)).2
              1%nat)
    = None.
Proof. destruct reversed; split_and!; vm_compute; reflexivity. Qed.

(** ** Removing a layer *)

Lemma for_each_state_or_error {A} (body : A → M unit) (xs : list A) (s : State) :
  ∃ r s', for_each xs body s = (r, s').
Proof. destruct (for_each xs body s). eauto. Qed.

(** [_set_dt] has nothing to return. *)
Lemma set_dt_returns_None `{Collaborators} (max_factor : Z) (s s' : State)
    (r : option Decimal) :
  _set_dt max_factor s = (Ok r, s') → r = None.
Proof.
  unfold _set_dt, bind at 1 2, get_net, get.
  destruct (Network._force_dt (net s)).
  - unfold bind at 1. destruct (for_each _ check_forced_dt s) as [[[]| |] s1]; [|done..].
    unfold bind. destruct (for_each _ _ s1) as [[[]| |] s2]; [|done..].
    unfold ret. congruence.
  - destruct (_ <$> _) as [|dt0 dts]; [unfold ret; congruence|].
    unfold bind at 1, lift.
    destruct (common_time_step max_factor dt0 dts) as [t_lcm| |]; [|done..].
    unfold bind at 1, modify_net, modify. unfold bind.
    destruct (for_each _ _ _) as [[[]| |] s2]; [|done..].
    unfold ret. congruence.
Qed.

(** Whenever [remove_layer] returns, the network has no time step at all,
    forced or not. *)
Lemma remove_layer_forgets_dt `{Collaborators} (del_layer : LayerId) (s s' : State) :
  remove_layer del_layer s = (Ok tt, s') → Network._dt (net s') = None.
Proof.
  unfold remove_layer, bind at 1 2, get_net.
  destruct (for_each _ _ s) as [[[]| |] s1]; [|done..].
  unfold bind at 1. case_bool_decide; [|done].
  unfold modify_net at 1, modify. unfold bind at 1.
  destruct (_set_dt 100 _) as [[r| |] s3] eqn:Hdt; [|done..].
  apply set_dt_returns_None in Hdt as ->.
  unfold bind at 1, modify_net at 1, modify. unfold bind at 1, _set_evolution_order.
  cbn [layers net set_net].
  destruct (evolution_order_loop _ _ _ _); [|done..].
  unfold modify_net, modify. by intros [= <-].
Qed.

(** C5, on [Network(A, B)]: with global time step [0.1], removing [B]
    returns, leaves [A] alone in the layer set and in the evolution order,
    and leaves the network without any time step, where the time step of the
    remaining layer [A] is [0.1]. *)
Theorem remove_layer_loses_dt (reversed : bool) :
  (∃ d, Network._dt (net (network_AB reversed)) = Some d
        ∧ dec_eqb d (mkDecimal 1 (-1)) = true)
  ∧ (@remove_layer (counting_layers reversed) 1%nat (network_AB reversed)).1 = Ok tt
  ∧ Network.layerset
      (net (@remove_layer (counting_layers reversed) 1%nat (network_AB reversed)).2)
    = {[ 0%nat ]}
  ∧ Network.evol_order
      (net (@remove_layer (counting_layers reversed) 1%nat (network_AB reversed)).2)
    = [0%nat]
  ∧ Layer.dt
      (layers (@remove_layer (counting_layers reversed) 1%nat (network_AB reversed)).2
              0%nat)
    = mkDecimal 1 (-1)
  ∧ Network._dt
      (net (@remove_layer (counting_layers reversed) 1%nat (network_AB reversed)).2)
    = None.
Proof.
  destruct reversed;
    (split_and!;
       first [ vm_compute; reflexivity
             | eexists; split; vm_compute; reflexivity ]).
Qed.

(** ** Batches of a training run *)

Lemma sum_Z_app (v w : list Z) : sum_Z (v ++ w) = sum_Z v + sum_Z w.
Proof. induction v as [|x v IH]; simpl; [done|]. rewrite IH. lia. Qed.

(** Batches of one size add up to the total. *)
Lemma uniform_batches_sum (num_timesteps num_ts_single_batch : Z) (v : list Z) :
  uniform_batches num_timesteps num_ts_single_batch = Ok v → sum_Z v = num_timesteps.
Proof.
  unfold uniform_batches, np_repeat.
  destruct (num_ts_single_batch =? 0); [done|].
  destruct (_ <? 0); simpl; [done|].
  destruct (replicate _ _) as [|x w]; [done|].
  intros [= <-]. rewrite sum_Z_app. simpl. lia.
Qed.

(** Batches that do not exceed the total are completed to it. *)
Lemma fit_batches_exact (num_timesteps : Z) (v w : list Z) :
  sum_Z v ≤ num_timesteps → fit_batches num_timesteps v = Ok w →
  sum_Z w = num_timesteps.
Proof.
  intros Hle. unfold fit_batches.
  destruct (Z.ltb_spec 0 (num_timesteps - sum_Z v)).
  - intros [= <-]. rewrite sum_Z_app. simpl. lia.
  - destruct (Z.ltb_spec (num_timesteps - sum_Z v) 0); [lia|].
    intros [= <-]. lia.
Qed.

(** Explicit batches that exceed the total are cut after the first batch
    that crosses it, and that batch keeps its size. *)
Lemma first_idx_beyond_spec (num_timesteps : Z) (v : list Z) :
  ∀ (acc : Z) (idx k : nat),
    first_idx_beyond num_timesteps acc idx v = Ok k →
    ∃ j : nat, k = (idx + j)%nat ∧ (j < length v)%nat
               ∧ num_timesteps < acc + sum_Z (take (j + 1) v).
Proof.
  induction v as [|x v IH]; intros acc idx k; simpl; [done|].
  destruct (Z.ltb_spec num_timesteps (acc + x)).
  - intros [= <-]. exists 0%nat. simpl. split_and!; lia.
  - intros Hrec. destruct (IH _ _ _ Hrec) as (j & -> & Hj & Hsum).
    exists (S j). simpl. split_and!; lia.
Qed.

Lemma fit_batches_overshoot (num_timesteps : Z) (v w : list Z) :
  num_timesteps < sum_Z v → fit_batches num_timesteps v = Ok w →
  num_timesteps < sum_Z w.
Proof.
  intros Hlt. unfold fit_batches.
  destruct (Z.ltb_spec 0 (num_timesteps - sum_Z v)); [lia|].
  destruct (Z.ltb_spec (num_timesteps - sum_Z v) 0); [|lia].
  destruct (first_idx_beyond num_timesteps 0 0 v) as [k| |] eqn:Hk; simpl; [|done..].
  intros [= <-]. apply first_idx_beyond_spec in Hk as (j & -> & _ & Hsum).
  simpl in *. lia.
Qed.

(** The case of the specification: [train] with [num_timesteps=100] and
    [nums_ts_batch=30]. *)
Example batches_of_30 (s : State) :
  batch_sizes 100 None (Some [30]) s = (Ok [30; 30; 30; 10], s).
Proof. reflexivity. Qed.

Example callbacks_of_30 (reversed : bool) :
  let outcome := @train (counting_layers reversed) idle_callback (Some silent) None None
                        (Some 100) (Some [30]) (network_AB reversed) in
  outcome.1 = Ok tt
  ∧ callbacks (calls outcome.2)
    = [(true, false); (false, false); (false, false); (false, true)]
  ∧ Network._timestep (net outcome.2) = 100.
Proof. destruct reversed; split_and!; vm_compute; reflexivity. Qed.

(** C7, on explicit batch sizes that exceed the total: for
    [num_timesteps=100] and [nums_ts_batch=[60, 60]] the batches stay
    [[60, 60]], which add up to [120]; [train] on [Network(A, B)] returns
    after two callbacks and leaves the network at timestep [120]. *)
Theorem train_explicit_batches_overshoot (reversed : bool) :
  (∀ s, batch_sizes 100 None (Some [60; 60]) s = (Ok [60; 60], s))
  ∧ sum_Z [60; 60] = 120
  ∧ (@train (counting_layers reversed) idle_callback (Some silent) None None
            (Some 100) (Some [60; 60]) (network_AB reversed)).1 = Ok tt
  ∧ callbacks
      (calls (@train (counting_layers reversed) idle_callback (Some silent) None None
                     (Some 100) (Some [60; 60]) (network_AB reversed)).2)
    = [(true, false); (false, true)]
  ∧ Network._timestep
      (net (@train (counting_layers reversed) idle_callback (Some silent) None None
                   (Some 100) (Some [60; 60]) (network_AB reversed)).2)
    = 120.
Proof. destruct reversed; split_and!; try done; vm_compute; reflexivity. Qed.

(** ** The global time step *)


Lemma dec_compare_antisym (a b : Decimal) : dec_compare b a = CompOpp (dec_compare a b).
Proof.
  unfold dec_compare, common_expo. rewrite (Z.min_comm (expo b)). apply Z.compare_antisym.
Qed.

Lemma dec_ltb_false_leb (a b : Decimal) : dec_ltb a b = false → dec_leb b a = true.
Proof.
  unfold dec_ltb, dec_leb. rewrite (dec_compare_antisym a b).
  by destruct (dec_compare a b).
Qed.


Lemma is_multiple_not_zero (a b : Decimal) (m : bool) :
  is_multiple a b = Ok m → dec_is_zero b = false.
Proof.
  unfold is_multiple, is_multiple_tol, dec_rem. by destruct (dec_is_zero b).
Qed.


Lemma any_not_multiple_false (t_lcm : Decimal) (dt_list : list Decimal) :
  any_not_multiple t_lcm dt_list = Ok false
  ↔ Forall (λ dt, is_multiple t_lcm dt = Ok true) dt_list.
Proof.
  induction dt_list as [|dt dts IH]; simpl.
  - split; [constructor|done].
  - destruct (is_multiple t_lcm dt) as [[]| |] eqn:Hm; simpl.
    + rewrite IH. split; [by constructor|by inversion 1].
    + split; [done|]. inversion 1; congruence.
    + split; [done|]. inversion 1; congruence.
    + split; [done|]. inversion 1; congruence.
Qed.


(** The last loop of [_set_dt] goes through when the time step is known and
    no layer has a zero time step; it leaves the network as it is. *)
Lemma set_timesteps_loop (d : Decimal) (lyrs : list LayerId) :
  ∀ s : State,
    Network._dt (net s) = Some d →
    Forall (λ lyr, dec_is_zero (Layer.dt (layers s lyr)) = false) lyrs →
    ∃ s', for_each lyrs set_timesteps_per_network_dt s = (Ok tt, s')
          ∧ net s' = net s ∧ calls s' = calls s
          ∧ ∀ lyr, Layer.dt (layers s' lyr) = Layer.dt (layers s lyr).
Proof.
  induction lyrs as [|lyr lyrs IH]; intros s Hdt Hnz.
  - exists s. done.
  - inversion Hnz as [|? ? Hlyr Hrest]; subst.
    cbn [for_each]. unfold bind at 1, set_timesteps_per_network_dt at 1.
    unfold bind at 1 2, get_net, get_layer. rewrite Hdt, Hlyr.
    unfold modify_layer, modify.
    set (s1 := set_layers _ s).
    assert (∀ x, Layer.dt (layers s1 x) = Layer.dt (layers s x)) as Hsame.
    { intros x. unfold s1. cbn. destruct (decide (lyr = x)) as [->|Hne].
      - by rewrite fn_lookup_alter.
      - by rewrite fn_lookup_alter_ne. }
    destruct (IH s1) as (s' & Hrun & Hnet & Hcalls & Hdts).
    + done.
    + eapply Forall_impl; [|exact Hrest]. intros x Hx. simpl in Hx. by rewrite Hsame.
    + exists s'. split_and!; [done..|]. intros x. by rewrite Hdts, Hsame.
Qed.

(** *** Time steps on the grid of [decimal_base] *)
















Lemma dec_leb_zero_nonneg (z a : Decimal) : coef z = 0 → 0 ≤ coef a → dec_leb z a = true.
Proof.
  intros Hz Ha. unfold dec_leb, dec_compare, align. rewrite Hz, Z.mul_0_l.
  pose proof (pow10_pos (expo a - common_expo z a) ltac:(unfold common_expo; lia)).
  destruct (Z.compare_spec 0 (coef a * 10 ^ (expo a - common_expo z a))); [done..|nia].
Qed.





(** *** The outcome of [_set_dt] *)

Lemma common_time_step_Ok (max_factor : Z) (dt0 D : Decimal) (dts : list Decimal) :
  common_time_step max_factor dt0 dts = Ok D →
  lcm_loop dt0 dts = Ok D
  ∧ Forall (λ dt, is_multiple D dt = Ok true) (dt0 :: dts)
  ∧ dec_leb D (dec_mul (dec_of_Z max_factor) (np_amax dt0 dts)) = true.
Proof.
  unfold common_time_step.
  destruct (lcm_loop dt0 dts) as [t_lcm| |]; cbn [rbind]; [|done..].
  destruct (dec_ltb _ t_lcm) eqn:Hlt; cbn [rbind]; [done|].
  destruct (any_not_multiple t_lcm (dt0 :: dts)) as [[]| |] eqn:Hany; cbn [rbind];
    [done| |done..].
  intros [= <-]. split_and!; [done| |].
  - by apply any_not_multiple_false.
  - by apply dec_ltb_false_leb.
Qed.


(** Without a forced time step and with at least one layer, [_set_dt] does
    what [common_time_step] decides: it stores the value found and returns,
    or raises the error in the state it was called in. *)
Lemma set_dt_run `{Collaborators} (max_factor : Z) (s : State) (dt0 : Decimal)
    (dts : list Decimal) :
  Network._force_dt (net s) = false →
  layer_dts s = dt0 :: dts →
  match common_time_step max_factor dt0 dts with
  | Ok D => ∃ s', _set_dt max_factor s = (Ok None, s')
                  ∧ net s' = Network.set__dt (Some D) (net s)
  | Raise e => _set_dt max_factor s = (Raise e, s)
  | OutOfFuel => _set_dt max_factor s = (OutOfFuel, s)
  end.
Proof.
  intros Hforce Hdts. unfold layer_dts in Hdts.
  unfold _set_dt. cbv [bind get_net get lift modify_net modify ret].
  rewrite Hforce, Hdts.
  destruct (common_time_step max_factor dt0 dts) as [D| |] eqn:Hstep; [|done..].
  apply common_time_step_Ok in Hstep as (_ & Hmult & _).
  destruct (set_timesteps_loop D (set_iter (Network.layerset (net s)))
              (set_net (Network.set__dt (Some D) (net s)) s))
    as (s' & Hrun & Hnet & _).
  - done.
  - assert (Forall (λ dt, dec_is_zero dt = false) (dt0 :: dts)) as Hnz.
    { eapply Forall_impl; [|exact Hmult]. intros dt Hdt. simpl in Hdt.
      by apply is_multiple_not_zero in Hdt. }
    rewrite <- Hdts in Hnz. apply Forall_fmap in Hnz. exact Hnz.
  - exists s'. rewrite Hrun. done.
Qed.



(** The third case of C2 is met by the two time steps of the scenario, with
    their common multiple [0.1]. *)
Example scenario_time_steps_on_grid :
  Forall on_grid [mkDecimal 1 (-1); mkDecimal 2 (-2)]
  ∧ Forall (λ dt, dec_divides dt (mkDecimal 1 (-1))) [mkDecimal 1 (-1); mkDecimal 2 (-2)]
  ∧ dec_leb (mkDecimal 1 (-1))
            (dec_mul (dec_of_Z 100) (np_amax (mkDecimal 1 (-1)) [mkDecimal 2 (-2)])) = true.
Proof.
  split_and!.
  - repeat constructor.
  - constructor; [by exists 1|]. constructor; [by exists 5|]. constructor.
  - reflexivity.
Qed.

(** * Further properties *)

(** ** Multiples, divisors and common multiples *)







(** ** What the methods leave untouched *)

Lemma for_each_preserves {A} (R : State → State → Prop) (body : A → M unit)
    (xs : list A) :
  (∀ s, R s s) → (∀ s1 s2 s3, R s1 s2 → R s2 s3 → R s1 s3) →
  (∀ x s s' r, body x s = (r, s') → R s s') →
  ∀ s r s', for_each xs body s = (r, s') → R s s'.
Proof.
  intros Hrefl Htrans Hbody. induction xs as [|x xs IH]; intros s r s'; cbn [for_each].
  - unfold ret. intros [= _ <-]. apply Hrefl.
  - unfold bind. destruct (body x s) as [[[]| |] s1] eqn:Hx.
    + intros Hrest. eapply Htrans; [by eapply Hbody|by eapply IH].
    + intros [= _ <-]. by eapply Hbody.
    + intros [= _ <-]. by eapply Hbody.
Qed.

Lemma time_step_frame_refl (s : State) : time_step_frame s s.
Proof. done. Qed.

Lemma time_step_frame_trans (s1 s2 s3 : State) :
  time_step_frame s1 s2 → time_step_frame s2 s3 → time_step_frame s1 s3.
Proof.
  intros (Hn1 & Hc1 & Hl1) (Hn2 & Hc2 & Hl2).
  split_and!; [congruence..|]. intros lyr. by rewrite Hl2.
Qed.

Lemma set_timesteps_frame (lyr : LayerId) (s s' : State) (r : Result unit) :
  set_timesteps_per_network_dt lyr s = (r, s') → time_step_frame s s'.
Proof.
  cbv [set_timesteps_per_network_dt bind get_net get_layer raise modify_layer modify].
  destruct (Network._dt (net s)); [|intros [= _ <-]; apply time_step_frame_refl].
  destruct (dec_is_zero _); intros [= _ <-]; [apply time_step_frame_refl|].
  split_and!; [done..|]. intros x. cbn.
  destruct (decide (lyr = x)) as [->|Hne].
  - rewrite fn_lookup_alter. by destruct (layers s x).
  - by rewrite fn_lookup_alter_ne.
Qed.

Lemma check_forced_dt_frame (lyr : LayerId) (s s' : State) (r : Result unit) :
  check_forced_dt lyr s = (r, s') → time_step_frame s s'.
Proof.
  cbv [check_forced_dt bind get_net get_layer raise lift ret].
  destruct (Network._dt (net s)); [|intros [= _ <-]; apply time_step_frame_refl].
  destruct (is_multiple _ _) as [[]| |]; intros [= _ <-]; apply time_step_frame_refl.
Qed.

(** [_set_dt], however it ends, writes nothing but the time step of the
    network and the steps per network step of the layers. *)
Lemma set_dt_frame `{Collaborators} (max_factor : Z) (s s' : State)
    (r : Result (option Decimal)) :
  _set_dt max_factor s = (r, s') → time_step_frame s s'.
Proof.
  unfold _set_dt. cbv [bind get_net get lift modify_net modify ret].
  destruct (Network._force_dt (net s)).
  - destruct (for_each _ check_forced_dt s) as [[[]| |] s1] eqn:H1.
    + apply (for_each_preserves time_step_frame) in H1;
        [|apply time_step_frame_refl|apply time_step_frame_trans
         |apply check_forced_dt_frame].
      destruct (for_each _ set_timesteps_per_network_dt s1) as [[[]| |] s2] eqn:H2;
        apply (for_each_preserves time_step_frame) in H2;
        try first [apply time_step_frame_refl|apply time_step_frame_trans
                  |apply set_timesteps_frame];
        intros [= _ <-]; by eapply time_step_frame_trans.
    + intros [= _ <-].
      eapply (for_each_preserves time_step_frame); [| | |exact H1];
        [apply time_step_frame_refl|apply time_step_frame_trans
        |apply check_forced_dt_frame].
    + intros [= _ <-].
      eapply (for_each_preserves time_step_frame); [| | |exact H1];
        [apply time_step_frame_refl|apply time_step_frame_trans
        |apply check_forced_dt_frame].
  - destruct (_ <$> _) as [|dt0 dts]; [intros [= _ <-]; apply time_step_frame_refl|].
    destruct (common_time_step max_factor dt0 dts) as [D| |];
      [|intros [= _ <-]; apply time_step_frame_refl..].
    set (s1 := set_net _ s).
    assert (time_step_frame s s1) as Hs1 by (split_and!; by destruct s as [? [] ?]).
    destruct (for_each _ set_timesteps_per_network_dt s1) as [[[]| |] s2] eqn:H2;
      apply (for_each_preserves time_step_frame) in H2;
      try first [apply time_step_frame_refl|apply time_step_frame_trans
                |apply set_timesteps_frame];
      intros [= _ <-]; by eapply time_step_frame_trans.
Qed.

(** ** Connecting, disconnecting and removing layers *)

Lemma tc_mono {A} (R1 R2 : relation A) (x y : A) :
  (∀ a b, R1 a b → R2 a b) → tc R1 x y → tc R2 x y.
Proof.
  intros Hsub. induction 1 as [x y Hxy|x y z Hxy _ IH].
  - by apply tc_once, Hsub.
  - eapply tc_l; [by apply Hsub|done].
Qed.

(** Clearing a predecessor only removes edges. *)
Lemma acyclic_clear (store : LayerId → Layer.t) (V : gset LayerId) (lyr : LayerId) :
  acyclic store V → acyclic (alter (Layer.set_pre_layer None) lyr store) V.
Proof.
  intros Hacyc x Hx. apply (Hacyc x). revert Hx. apply tc_mono.
  intros a b (Ha & Hb & Hpre). split_and!; [done..|].
  destruct (decide (lyr = a)) as [->|Hne].
  - by rewrite fn_lookup_alter in Hpre.
  - by rewrite fn_lookup_alter_ne in Hpre.
Qed.

(** Removing a vertex only removes edges. *)
Lemma acyclic_subset (store : LayerId → Layer.t) (V W : gset LayerId) :
  W ⊆ V → acyclic store V → acyclic store W.
Proof.
  intros HWV Hacyc x Hx. apply (Hacyc x). revert Hx. apply tc_mono.
  intros a b (Ha & Hb & Hpre). split_and!; [set_solver..|done].
Qed.

(** The resolver run on the whole layer set, with fuel for every layer. *)
Lemma evolution_order_of_acyclic `{Collaborators} (store : LayerId → Layer.t)
    (V : gset LayerId) :
  set_iter_spec → acyclic store V →
  ∃ order, evolution_order_loop (size V) store V [] = Ok order
           ∧ order ≡ₚ elements V ∧ predecessors_first store V order.
Proof.
  intros Hiter Hacyc.
  destruct (evolution_order_loop_acyclic store Hiter V Hacyc (size V) V [])
    as (tail & Heq & Hperm & Hfirst); [done..|].
  by exists tail.
Qed.

Lemma evolution_order_Ok_inv `{Collaborators} (store : LayerId → Layer.t)
    (V : gset LayerId) (order : list LayerId) :
  set_iter_spec → evolution_order_loop (size V) store V [] = Ok order →
  acyclic store V ∧ order ≡ₚ elements V ∧ predecessors_first store V order.
Proof.
  intros Hiter Hok.
  assert (acyclic store V) as Hacyc.
  { intros x Hcyc.
    apply (evolution_order_loop_cycle store Hiter V x Hcyc (size V) V [] order);
      [done| |exact Hok].
    intros y Hy. apply rtc_tc in Hy as [<-|Hy].
    - inversion Hcyc as [? ? Hstep|? ? ? Hstep _]; apply Hstep.
    - clear -Hy. induction Hy as [? ? Hstep|]; [apply Hstep|done]. }
  split; [done|].
  destruct (evolution_order_of_acyclic store V Hiter Hacyc) as (order' & Heq & ? & ?).
  rewrite Hok in Heq. by injection Heq as <-.
Qed.

Lemma evolution_order_of_cycle `{Collaborators} (store : LayerId → Layer.t)
    (V : gset LayerId) :
  set_iter_spec → has_cycle store V →
  evolution_order_loop (size V) store V []
  = Raise (NetworkError CannotResolveEvolutionOrder).
Proof.
  intros Hiter [x Hcyc].
  destruct (evolution_order_loop_outcome store Hiter (size V) V [] (le_n _))
    as [[order Hok]| ->]; [|done].
  apply (evolution_order_Ok_inv store V order Hiter) in Hok as (Hacyc & _).
  by destruct (Hacyc x).
Qed.

(** X4. A connection between layers of matching size and type that keeps
    the graph of the members acyclic is installed: [connect] returns, the
    target has the source as [pre_layer], no other layer is touched, and the
    evolution order is recomputed for the new graph, every layer after its
    predecessor. A connection that closes a cycle is refused with the
    resolver's [NetworkError]. *)
Theorem connect_installs_edge `{Collaborators} (s : State) (pre_layer post_layer : LayerId) :
  set_iter_spec →
  Layer.size (layers s pre_layer) = Layer.size_in (layers s post_layer) →
  Layer.output_type (layers s pre_layer) = Layer.input_type (layers s post_layer) →
  let store' := alter (Layer.set_pre_layer (Some pre_layer)) post_layer (layers s) in
  (acyclic store' (Network.layerset (net s)) →
     ∃ order,
       connect pre_layer post_layer s
       = (Ok tt, mkState store' (Network.set_evol_order order (net s)) (calls s))
       ∧ order ≡ₚ elements (Network.layerset (net s))
       ∧ predecessors_first store' (Network.layerset (net s)) order)
  ∧ (has_cycle store' (Network.layerset (net s)) →
       (connect pre_layer post_layer s).1
       = Raise (NetworkError CannotResolveEvolutionOrder)).
Proof.
  intros Hiter Hsize Htype store'.
  cbv [connect bind get_layer modify_layer modify modify_net raise
       try_except_NetworkError _set_evolution_order].
  rewrite bool_decide_eq_false_2 by (by intros ?).
  rewrite bool_decide_eq_false_2 by (by intros ?).
  cbn [layers net set_layers]. fold store'. split.
  - intros Hacyc.
    destruct (evolution_order_of_acyclic store' _ Hiter Hacyc) as (order & Heq & Hp & Hf).
    exists order. destruct (evolution_order_loop _ _ _ _) as [o| |]; [|done..].
    by injection Heq as ->.
  - intros Hcyc. pose proof (evolution_order_of_cycle store' _ Hiter Hcyc) as Hr.
    destruct (evolution_order_loop _ _ _ _) as [o|e|]; [done| |done].
    injection Hr as ->. reflexivity.
Qed.

Lemma connect_installs_edge_witness :
  let s := network_AB false in
  let store' := alter (Layer.set_pre_layer (Some 0%nat)) 1%nat (layers s) in
  (acyclic store' (Network.layerset (net s)) →
     ∃ order,
       @connect (counting_layers false) 0%nat 1%nat s
       = (Ok tt, mkState store' (Network.set_evol_order order (net s)) (calls s))
       ∧ order ≡ₚ elements (Network.layerset (net s))
       ∧ predecessors_first store' (Network.layerset (net s)) order)
  ∧ (has_cycle store' (Network.layerset (net s)) →
       (@connect (counting_layers false) 0%nat 1%nat s).1
       = Raise (NetworkError CannotResolveEvolutionOrder)).
Proof.
  apply (@connect_installs_edge (counting_layers false) (network_AB false) 0%nat 1%nat).
  - intros V. reflexivity.
  - vm_compute; reflexivity.
  - vm_compute; reflexivity.
Defined.

(** X5. [disconnect] of two layers that are not connected changes nothing
    at all; of two connected layers in an acyclic network it cannot fail: it
    clears the target's [pre_layer], touches no other layer, and recomputes
    the evolution order for the smaller graph. *)
Theorem disconnect_outcome `{Collaborators} (s : State) (pre_layer post_layer : LayerId) :
  set_iter_spec →
  acyclic (layers s) (Network.layerset (net s)) →
  (Layer.pre_layer (layers s post_layer) ≠ Some pre_layer →
     disconnect pre_layer post_layer s = (Ok tt, s))
  ∧ (Layer.pre_layer (layers s post_layer) = Some pre_layer →
       let store' := alter (Layer.set_pre_layer None) post_layer (layers s) in
       ∃ order,
         disconnect pre_layer post_layer s
         = (Ok tt, mkState store' (Network.set_evol_order order (net s)) (calls s))
         ∧ order ≡ₚ elements (Network.layerset (net s))
         ∧ predecessors_first store' (Network.layerset (net s)) order).
Proof.
  intros Hiter Hacyc.
  cbv [disconnect bind get_layer modify_layer modify modify_net raise ret
       try_except_NetworkError _set_evolution_order].
  split.
  - intros Hne. by rewrite bool_decide_eq_false_2.
  - intros Heq. rewrite bool_decide_eq_true_2 by done.
    cbn [layers net set_layers].
    set (store' := alter (Layer.set_pre_layer None) post_layer (layers s)).
    destruct (evolution_order_of_acyclic store' (Network.layerset (net s)) Hiter)
      as (order & Heq' & Hp & Hf); [by apply acyclic_clear|].
    exists order. destruct (evolution_order_loop _ _ _ _) as [o| |]; [|done..].
    by injection Heq' as ->.
Qed.

Lemma disconnect_outcome_witness :
  let s := network_CAB false in
  (Layer.pre_layer (layers s 2%nat) ≠ Some 1%nat →
     @disconnect (counting_layers false) 1%nat 2%nat s = (Ok tt, s))
  ∧ (Layer.pre_layer (layers s 2%nat) = Some 1%nat →
       let store' := alter (Layer.set_pre_layer None) 2%nat (layers s) in
       ∃ order,
         @disconnect (counting_layers false) 1%nat 2%nat s
         = (Ok tt, mkState store' (Network.set_evol_order order (net s)) (calls s))
         ∧ order ≡ₚ elements (Network.layerset (net s))
         ∧ predecessors_first store' (Network.layerset (net s)) order).
Proof.
  apply (@disconnect_outcome (counting_layers false) (network_CAB false) 1%nat 2%nat).
  - intros V. reflexivity.
  - exact chain_acyclic.
Defined.

Lemma erase_ratio_inv (l l' : Layer.t) :
  erase_ratio l' = erase_ratio l →
  l' = Layer.set__timesteps_per_network_dt (Layer._timesteps_per_network_dt l') l.
Proof. destruct l, l'. cbv. by intros [= -> -> -> -> -> -> -> -> -> ->]. Qed.

Lemma erase_dt_inv (n n' : Network.t) :
  erase_dt n' = erase_dt n → n' = Network.set__dt (Network._dt n') n.
Proof. destruct n, n'. cbv. by intros [= -> -> -> -> -> -> ->]. Qed.

(** The first loop of [remove_layer]: every listed layer fed by
    [del_layer] loses its predecessor, and nothing else happens. *)
Lemma clear_pre_layer_loop `{Collaborators} (del_layer : LayerId) (lyrs : list LayerId) :
  ∀ s, ∃ s1,
    for_each lyrs (clear_pre_layer del_layer) s = (Ok tt, s1)
    ∧ net s1 = net s ∧ calls s1 = calls s
    ∧ ∀ x, layers s1 x
           = if bool_decide (x ∈ lyrs ∧ Layer.pre_layer (layers s x) = Some del_layer)
             then Layer.set_pre_layer None (layers s x) else layers s x.
Proof.
  induction lyrs as [|a lyrs IH]; intros s.
  - exists s. split_and!; [done..|]. intros x.
    rewrite bool_decide_eq_false_2; [done|]. intros [Hx _]. by apply elem_of_nil in Hx.
  - cbn [for_each]. cbv [bind clear_pre_layer get_layer modify_layer modify ret].
    case_bool_decide as Ha.
    + destruct (IH (set_layers (alter (Layer.set_pre_layer None) a (layers s)) s))
        as (s1 & Hrun & Hnet & Hcalls & Hlayers).
      exists s1. split_and!; [done..|]. intros x. rewrite Hlayers. cbn [layers set_layers].
      destruct (decide (a = x)) as [->|Hne].
      * rewrite fn_lookup_alter. rewrite bool_decide_eq_false_2 by (by intros [_ ?]).
        rewrite bool_decide_eq_true_2; [done|]. split; [by left|done].
      * rewrite fn_lookup_alter_ne by done.
        case_bool_decide as Hl; case_bool_decide as Hr; try done;
          exfalso; rewrite elem_of_cons in *; naive_solver.
    + destruct (IH s) as (s1 & Hrun & Hnet & Hcalls & Hlayers).
      exists s1. split_and!; [done..|]. intros x. rewrite Hlayers.
      case_bool_decide as Hl; case_bool_decide as Hr; try done;
          exfalso; rewrite elem_of_cons in *; naive_solver.
Qed.

(** What [remove_layer] has done when it returns. *)
Lemma remove_layer_Ok_inv `{Collaborators} (del_layer : LayerId) (s s' : State) :
  set_iter_spec →
  remove_layer del_layer s = (Ok tt, s') →
  let V := Network.layerset (net s) in
  del_layer ∈ V ∧ calls s' = calls s
  ∧ (∀ lyr, erase_ratio (layers s' lyr)
            = erase_ratio
                (if bool_decide (lyr ∈ V ∧ Layer.pre_layer (layers s lyr) = Some del_layer)
                 then Layer.set_pre_layer None (layers s lyr) else layers s lyr))
  ∧ ∃ order,
      net s' = Network.set_evol_order order
                 (Network.set__dt None (Network.set_layerset (V ∖ {[del_layer]}) (net s)))
      ∧ order ≡ₚ elements (V ∖ {[del_layer]})
      ∧ predecessors_first (layers s') (V ∖ {[del_layer]}) order.
Proof.
  intros Hiter Hrun V. revert Hrun.
  cbv [remove_layer bind get_net modify_net modify raise _set_evolution_order].
  destruct (clear_pre_layer_loop del_layer (set_iter (Network.layerset (net s))) s)
    as (s1 & Hloop & Hnet1 & Hcalls1 & Hlayers1).
  destruct (for_each _ _ s) as [r1 s1']. injection Hloop as -> ->.
  fold V. case_bool_decide as Hmem; [|done]. rewrite Hnet1.
  set (s2 := set_net (Network.set_layerset (V ∖ {[del_layer]}) (net s)) s1).
  destruct (_set_dt 100 s2) as [[r3| |] s3] eqn:Hdt; [|done..].
  pose proof (set_dt_returns_None _ _ _ _ Hdt) as ->.
  apply set_dt_frame in Hdt as (Hnet3 & Hcalls3 & Hlayers3).
  cbn [net layers set_net].
  destruct (evolution_order_loop _ _ _ _) as [order| |] eqn:Horder; [|done..].
  intros [= <-]. cbn [net layers calls set_net].
  apply erase_dt_inv in Hnet3. rewrite Hnet3 in Horder |- *.
  cbn [Network.layerset Network.set__dt Network.set_layerset net set_net s2] in Horder.
  apply (evolution_order_Ok_inv _ _ _ Hiter) in Horder as (_ & Hperm & Hfirst).
  split_and!.
  - done.
  - by rewrite Hcalls3.
  - intros lyr. rewrite Hlayers3. cbn [layers set_net s2]. rewrite Hlayers1.
    f_equal. case_bool_decide as Hl; case_bool_decide as Hr; try done; exfalso.
    + apply Hr. split; [|apply Hl]. by apply (elem_of_set_iter Hiter), Hl.
    + apply Hl. split; [|apply Hr]. by apply (elem_of_set_iter Hiter), Hr.
  - exists order. split_and!; [|done..]. by destruct (net s).
Qed.

(** X6. When [remove_layer] returns, the layer was a member and is one no
    more; exactly the members it fed have lost their predecessor; the
    evolution order lists the remaining members, every one after its
    predecessor; and the network still holds the removed layer under its
    name, since the attribute set by [add_layer] is never deleted. *)
Theorem remove_layer_postconditions `{Collaborators} (del_layer : LayerId) (s s' : State) :
  set_iter_spec →
  remove_layer del_layer s = (Ok tt, s') →
  let V := Network.layerset (net s) in
  del_layer ∈ V
  ∧ Network.layerset (net s') = V ∖ {[del_layer]}
  ∧ (∀ lyr, Layer.pre_layer (layers s' lyr)
            = if bool_decide (lyr ∈ V ∧ Layer.pre_layer (layers s lyr) = Some del_layer)
              then None else Layer.pre_layer (layers s lyr))
  ∧ Network.evol_order (net s') ≡ₚ elements (V ∖ {[del_layer]})
  ∧ predecessors_first (layers s') (V ∖ {[del_layer]}) (Network.evol_order (net s'))
  ∧ Network.attrs (net s') = Network.attrs (net s)
  ∧ Layer.name (layers s' del_layer) = Layer.name (layers s del_layer).
Proof.
  intros Hiter Hrun V.
  destruct (remove_layer_Ok_inv del_layer s s' Hiter Hrun)
    as (Hmem & _ & Hlayers & order & Hnet & Hperm & Hfirst).
  fold V in Hmem, Hlayers, Hnet, Hperm, Hfirst.
  assert (∀ lyr, Layer.pre_layer (layers s' lyr)
            = if bool_decide (lyr ∈ V ∧ Layer.pre_layer (layers s lyr) = Some del_layer)
              then None else Layer.pre_layer (layers s lyr)) as Hpre.
  { intros lyr. rewrite (erase_ratio_inv _ _ (Hlayers lyr)). by case_bool_decide. }
  split_and!; [done|by rewrite Hnet|done|by rewrite Hnet|by rewrite Hnet|by rewrite Hnet|].
  rewrite (erase_ratio_inv _ _ (Hlayers del_layer)). by case_bool_decide.
Qed.

Lemma remove_layer_postconditions_witness :
  let s := network_AB false in
  let s' := (@remove_layer (counting_layers false) 1%nat s).2 in
  let V := Network.layerset (net s) in
  1%nat ∈ V
  ∧ Network.layerset (net s') = V ∖ {[1%nat]}
  ∧ (∀ lyr, Layer.pre_layer (layers s' lyr)
            = if bool_decide (lyr ∈ V ∧ Layer.pre_layer (layers s lyr) = Some 1%nat)
              then None else Layer.pre_layer (layers s lyr))
  ∧ Network.evol_order (net s') ≡ₚ elements (V ∖ {[1%nat]})
  ∧ predecessors_first (layers s') (V ∖ {[1%nat]}) (Network.evol_order (net s'))
  ∧ Network.attrs (net s') = Network.attrs (net s)
  ∧ Layer.name (layers s' 1%nat) = Layer.name (layers s 1%nat).
Proof.
  apply (@remove_layer_postconditions (counting_layers false) 1%nat (network_AB false)).
  - intros V. reflexivity.
  - vm_compute; reflexivity.
Defined.



Lemma isclose_at_zero (l : Layer.t) :
  Layer._timestep l = 0 → np_isclose (Layer.t_ l) (dec_of_Z 0) = true.
Proof.
  intros Hz. unfold np_isclose. apply dec_leb_zero_nonneg.
  - unfold Layer.t_. rewrite Hz. cbn. unfold align. cbn. lia.
  - cbn. unfold align. cbn. lia.
Qed.

(** X8. A layer that was removed cannot be added again: its name is still
    bound to it on the network, so [add_layer] takes it for a member and
    returns without doing anything, or fails its assertion on the clocks
    when the layer's clock is not at zero, the time of a network that has
    lost its time step. *)
Theorem removed_layer_is_not_added_again `{Collaborators} (lyr : LayerId)
    (input_layer output_layer : option LayerId) (external_input : bool) (s s1 : State) :
  set_iter_spec →
  Network.attrs (net s) !! Layer.name (layers s lyr) = Some lyr →
  remove_layer lyr s = (Ok tt, s1) →
  (lyr ∉ Network.layerset (net s1))
  ∧ (add_layer lyr input_layer output_layer external_input s1 = (Ok lyr, s1)
     ∨ add_layer lyr input_layer output_layer external_input s1
       = (Raise AssertionError, s1))
  ∧ (Layer._timestep (layers s lyr) = 0 →
       add_layer lyr input_layer output_layer external_input s1 = (Ok lyr, s1)).
Proof.
  intros Hiter Hbound Hrun.
  destruct (remove_layer_Ok_inv lyr s s1 Hiter Hrun)
    as (Hmem & _ & Hlayers & order & Hnet & _ & _).
  assert (Layer.name (layers s1 lyr) = Layer.name (layers s lyr)) as Hname.
  { rewrite (erase_ratio_inv _ _ (Hlayers lyr)). by case_bool_decide. }
  assert (Layer._timestep (layers s1 lyr) = Layer._timestep (layers s lyr)) as Hstep.
  { rewrite (erase_ratio_inv _ _ (Hlayers lyr)). by case_bool_decide. }
  assert (Layer.dt (layers s1 lyr) = Layer.dt (layers s lyr)) as Hdt.
  { rewrite (erase_ratio_inv _ _ (Hlayers lyr)). by case_bool_decide. }
  assert (Network.attrs (net s1) = Network.attrs (net s)) as Hattrs by (by rewrite Hnet).
  assert (Network.t_ (net s1) = dec_of_Z 0) as Htime by (by rewrite Hnet).
  assert (∀ b : bool,
            np_isclose (Layer.t_ (layers s1 lyr)) (dec_of_Z 0) = b →
            add_layer lyr input_layer output_layer external_input s1
            = ((if b then Ok lyr else Raise AssertionError), s1)) as Hadd.
  { intros b Hb. unfold add_layer, bind at 1 2, get_layer, get_net.
    rewrite Htime, Hb. destruct b; [|done]. cbn [negb].
    unfold hasattr. rewrite Hattrs, Hname, Hbound.
    rewrite (bool_decide_eq_true_2 (is_Some _)) by done.
    rewrite orb_true_r, bool_decide_eq_true_2 by done. done. }
  split_and!.
  - rewrite Hnet. cbn. set_solver.
  - pose proof (Hadd _ eq_refl) as Hr.
    destruct (np_isclose (Layer.t_ (layers s1 lyr)) (dec_of_Z 0)); [left|right]; exact Hr.
  - intros Hzero. apply (Hadd true), isclose_at_zero. by rewrite Hstep.
Qed.

Lemma removed_layer_is_not_added_again_witness :
  let s := network_AB false in
  let s1 := (@remove_layer (counting_layers false) 1%nat s).2 in
  (1%nat ∉ Network.layerset (net s1))
  ∧ (@add_layer (counting_layers false) 1%nat (Some 0%nat) None false s1 = (Ok 1%nat, s1)
     ∨ @add_layer (counting_layers false) 1%nat (Some 0%nat) None false s1
       = (Raise AssertionError, s1))
  ∧ (Layer._timestep (layers s 1%nat) = 0 →
       @add_layer (counting_layers false) 1%nat (Some 0%nat) None false s1
       = (Ok 1%nat, s1)).
Proof.
  apply (@removed_layer_is_not_added_again (counting_layers false) 1%nat (Some 0%nat) None
           false (network_AB false)).
  - intros V. reflexivity.
  - vm_compute; reflexivity.
  - vm_compute; reflexivity.
Defined.

(** ** The time step of the network and the steps of the layers *)



(** The last loop of [_set_dt], with the values it stores. *)
Lemma set_timesteps_loop_values (d : Decimal) (lyrs : list LayerId) :
  ∀ s : State,
    Network._dt (net s) = Some d →
    Forall (λ lyr, dec_is_zero (Layer.dt (layers s lyr)) = false) lyrs →
    ∃ s', for_each lyrs set_timesteps_per_network_dt s = (Ok tt, s')
          ∧ net s' = net s ∧ calls s' = calls s
          ∧ ∀ lyr, layers s' lyr
                   = if bool_decide (lyr ∈ lyrs)
                     then Layer.set__timesteps_per_network_dt
                            (round_quotient d (Layer.dt (layers s lyr))) (layers s lyr)
                     else layers s lyr.
Proof.
  induction lyrs as [|a lyrs IH]; intros s Hdt Hnz.
  - exists s. split_and!; [done..|]. intros lyr.
    rewrite bool_decide_eq_false_2; [done|]. apply not_elem_of_nil.
  - inversion Hnz as [|? ? Ha Hrest]; subst.
    cbn [for_each]. unfold bind at 1, set_timesteps_per_network_dt at 1.
    unfold bind at 1 2, get_net, get_layer. rewrite Hdt, Ha.
    unfold modify_layer, modify.
    set (s1 := set_layers _ s).
    assert (∀ x, Layer.dt (layers s1 x) = Layer.dt (layers s x)) as Hsame.
    { intros x. unfold s1. cbn. destruct (decide (a = x)) as [->|Hne].
      - by rewrite fn_lookup_alter.
      - by rewrite fn_lookup_alter_ne. }
    destruct (IH s1) as (s' & Hrun & Hnet & Hcalls & Hval).
    + done.
    + eapply Forall_impl; [|exact Hrest]. intros x Hx. simpl in Hx. by rewrite Hsame.
    + exists s'. split_and!; [done..|]. intros x. rewrite Hval, Hsame.
      unfold s1. cbn [layers set_layers].
      destruct (decide (a = x)) as [->|Hne].
      * rewrite fn_lookup_alter.
        rewrite (bool_decide_eq_true_2 (x ∈ x :: lyrs)) by (by left).
        by case_bool_decide.
      * rewrite fn_lookup_alter_ne by done.
        case_bool_decide as Hl; case_bool_decide as Hr; try done;
          exfalso; rewrite elem_of_cons in *; naive_solver.
Qed.

(** The first loop of [_set_dt] under a forced time step: it changes
    nothing, and stops at the first layer that fails the test. *)
Lemma check_forced_loop `{Collaborators} (D : Decimal) (lyrs : list LayerId) (s : State) :
  Network._dt (net s) = Some D →
  (Forall (λ lyr, is_multiple D (Layer.dt (layers s lyr)) = Ok true) lyrs
   ∧ for_each lyrs check_forced_dt s = (Ok tt, s))
  ∨ (∃ lyr, lyr ∈ lyrs
        ∧ is_multiple D (Layer.dt (layers s lyr)) ≠ Ok true
        ∧ for_each lyrs check_forced_dt s
          = (match is_multiple D (Layer.dt (layers s lyr)) with
             | Ok _ => Raise (ValueError (DtNotMultipleOfLayerDt (Layer.name (layers s lyr))))
             | Raise e => Raise e
             | OutOfFuel => OutOfFuel
             end, s)).
Proof.
  intros Hdt. induction lyrs as [|a lyrs IH].
  - left. split; [constructor|done].
  - cbn [for_each]. cbv [bind check_forced_dt get_net get_layer lift ret raise].
    rewrite Hdt.
    destruct (is_multiple D (Layer.dt (layers s a))) as [[]| |] eqn:Ha.
    + destruct IH as [[Hall Hrun]|(lyr & Hin & Hno & Hrun)].
      * left. split; [by constructor|done].
      * right. exists lyr. split_and!; [by right|done|done].
    + right. exists a. rewrite Ha. split_and!; [by left|done|done].
    + right. exists a. rewrite Ha. split_and!; [by left|done|done].
    + right. exists a. rewrite Ha. split_and!; [by left|done|done].
Qed.






Lemma check_forced_loop_no_dt `{Collaborators} (lyrs : list LayerId) (s : State) :
  Network._dt (net s) = None →
  for_each lyrs check_forced_dt s
  = (match lyrs with [] => Ok tt | _ :: _ => Raise InvalidOperation end, s).
Proof.
  intros Hdt. destruct lyrs as [|a lyrs]; [done|].
  cbn [for_each]. cbv [bind check_forced_dt get_net get_layer raise]. by rewrite Hdt.
Qed.

(** X11. [_set_dt] is all or nothing. However it ends, it has written
    nothing but the time step of the network and the steps per network step
    of the layers; under a forced time step it has not written the former;
    and unless it returns it has written nothing: an error of [_set_dt]
    leaves the time step and all layers as they were. *)
Theorem set_dt_all_or_nothing `{Collaborators} (max_factor : Z) (s : State) :
  time_step_frame s (_set_dt max_factor s).2
  ∧ (Network._force_dt (net s) = true → net (_set_dt max_factor s).2 = net s)
  ∧ ((_set_dt max_factor s).1 ≠ Ok None → (_set_dt max_factor s).2 = s).
Proof.
  split.
  { destruct (_set_dt max_factor s) as [r s'] eqn:Hrun. by apply set_dt_frame in Hrun. }
  destruct (Network._force_dt (net s)) eqn:Hforce.
  - assert (∃ r s', _set_dt max_factor s = (r, s') ∧ net s' = net s
                    ∧ (r ≠ Ok None → s' = s)) as (r & s' & -> & Hnet & Hs); [|done].
    unfold _set_dt. cbv [bind get_net get lift modify_net modify ret]. rewrite Hforce.
    destruct (Network._dt (net s)) as [D|] eqn:Hdt.
    + destruct (check_forced_loop D (set_iter (Network.layerset (net s))) s Hdt)
        as [[Hall Hrun]|(lyr & Hin & Hno & Hrun)].
      * destruct (set_timesteps_loop_values D (set_iter (Network.layerset (net s))) s Hdt)
          as (s' & Hrun' & Hnet & _).
        { eapply Forall_impl; [|exact Hall]. intros lyr Hlyr. simpl in Hlyr.
          by apply is_multiple_not_zero in Hlyr. }
        destruct (for_each _ check_forced_dt s) as [r1 s1]. injection Hrun as -> ->.
        destruct (for_each _ set_timesteps_per_network_dt s) as [r2 s2].
        injection Hrun' as -> ->. by exists (Ok None), s'.
      * destruct (for_each _ check_forced_dt s) as [r1 s1]. injection Hrun as -> ->.
        destruct (is_multiple D (Layer.dt (layers s lyr))) as [[]| |]; eauto.
    + rewrite (check_forced_loop_no_dt _ s Hdt).
      destruct (set_iter (Network.layerset (net s))); cbn; eauto.
  - split; [done|].
    destruct (layer_dts s) as [|dt0 dts] eqn:Hdts.
    + unfold _set_dt. cbv [bind get_net get lift modify_net modify ret].
      unfold layer_dts in Hdts. by rewrite Hforce, Hdts.
    + pose proof (set_dt_run max_factor s dt0 dts Hforce Hdts) as Hrun.
      destruct (common_time_step max_factor dt0 dts).
      * destruct Hrun as (s' & -> & _). done.
      * by rewrite Hrun.
      * by rewrite Hrun.
Qed.

(** ** New names for layers *)













(** *** The search for a free name ends *)











(** ** Adding a layer *)






(** The loop that looks for a free name never raises, and a name it finds
    is free. *)
Lemma find_new_name_outcome `{Collaborators} (fuel : nat) (n : Network.t) (name : string) :
  (∃ newname, find_new_name fuel n name = Ok newname ∧ hasattr n newname = false)
  ∨ find_new_name fuel n name = OutOfFuel.
Proof.
  revert name. induction fuel as [|fuel IH]; intros name; cbn [find_new_name].
  - destruct (hasattr n name) eqn:Hn; [by right|left; by exists name].
  - destruct (hasattr n name) eqn:Hn; [apply IH|left; by exists name].
Qed.











(** ** Evolution *)

Lemma resolve_num_timesteps_state `{Collaborators} (ts_input : option TimeSeries)
    (duration_arg : option Decimal) (num_timesteps : option Z) (s : State) :
  (resolve_num_timesteps ts_input duration_arg num_timesteps s).2 = s.
Proof.
  unfold resolve_num_timesteps. destruct num_timesteps as [n|]; [done|].
  cbv [bind get_net float_floor_div ret raise].
  destruct duration_arg as [d|].
  - destruct (Network._dt (net s)) as [dt|]; [|done]. by destruct (dec_is_zero dt).
  - destruct ts_input as [ts|]; [|done].
    destruct (periodic ts).
    + destruct (Network._dt (net s)) as [dt|]; [|done]. by destruct (dec_is_zero dt).
    + destruct (dec_ltb _ _); [|done].
      destruct (Network._dt (net s)) as [dt|]; [|done]. by destruct (dec_is_zero dt).
Qed.

(** X14. [evolve] refuses a network that is out of sync before it touches
    anything: when the number of steps can be determined and some layer of
    the evolution order is not in sync, it raises the [NetworkError] "not all
    layers are in sync" and no layer has been evolved. *)
Theorem evolve_refuses_out_of_sync `{Collaborators} (ts_input : option TimeSeries)
    (duration_arg : option Decimal) (num_timesteps : option Z) (s : State) (n : Z) :
  (resolve_num_timesteps ts_input duration_arg num_timesteps s).1 = Ok n →
  Exists (λ lyr, ¬ in_sync s lyr) (Network.evol_order (net s)) →
  evolve ts_input duration_arg num_timesteps s = (Raise (NetworkError LayersNotInSync), s).
Proof.
  intros Hn Hbad.
  pose proof (resolve_num_timesteps_state ts_input duration_arg num_timesteps s) as Hs.
  destruct (resolve_num_timesteps ts_input duration_arg num_timesteps s) as [r s0] eqn:Hres.
  cbn in Hn, Hs. subst r s0.
  unfold evolve, bind at 1, evolve_and_advance, bind at 1. rewrite Hres.
  unfold bind at 1.
  destruct (check_sync_outcome s) as [[Hall _]|[_ ->]]; [|done].
  exfalso. apply Exists_exists in Hbad as (lyr & Hin & Hno).
  rewrite Forall_forall in Hall. by apply Hno, Hall.
Qed.

Lemma evolve_refuses_out_of_sync_witness :
  let s := (@evolve lazy_layers None None (Some 2) lazy_network_AB).2 in
  @evolve lazy_layers None None (Some 3) s = (Raise (NetworkError LayersNotInSync), s).
Proof.
  apply (@evolve_refuses_out_of_sync lazy_layers None None (Some 3) _ 3).
  - reflexivity.
  - apply Exists_cons_hd. unfold in_sync. vm_compute. intros Heq. discriminate Heq.
Defined.

(** One turn of the loop of [evolve] with a layer that keeps its contract
    and whose input, if it comes from another layer, is in the dictionary. *)
Lemma evolve_layer_run `{Collaborators} (ts_input : option TimeSeries) (n : Z)
    (trial : option (list Decimal)) (signal_dict : gmap string (option TimeSeries))
    (lyr : LayerId) (s : State) :
  layer_contract →
  (∀ p, Layer.external_input (layers s lyr) = false →
        Layer.pre_layer (layers s lyr) = Some p →
        is_Some (signal_dict !! Layer.name (layers s p))) →
  let k := n * Layer._timesteps_per_network_dt (layers s lyr) in
  ∃ st out,
    evolve_layer ts_input n trial signal_dict lyr s
    = (Ok (<[Layer.name (layers s lyr) := Some out]> signal_dict),
       mkState (alter (λ _, Layer.set__timestep (Layer._timestep (layers s lyr) + k)
                              (Layer.set_state st (layers s lyr))) lyr (layers s))
               (net s) (calls s ++ [LayerEvolve lyr k])).
Proof.
  intros Hc Hin k.
  assert (∃ inp, (if Layer.external_input (layers s lyr) then ret ts_input
                  else match Layer.pre_layer (layers s lyr) with
                       | Some pre =>
                           p <- get_layer pre ;;
                           match signal_dict !! Layer.name p with
                           | Some ts => ret ts
                           | None => raise KeyError
                           end
                       | None => ret None
                       end) s = (Ok inp, s)) as [inp Hinp].
  { destruct (Layer.external_input (layers s lyr)); [by eexists|].
    destruct (Layer.pre_layer (layers s lyr)) as [p|]; [|by eexists].
    destruct (Hin p eq_refl eq_refl) as [ts Hts].
    exists ts. cbv [bind get_layer]. by rewrite Hts. }
  destruct (Hc (layers s lyr) inp k) as (st & out & Hev).
  unfold evolve_layer. unfold bind at 1, get_layer at 1. unfold bind at 1.
  rewrite Hinp. fold k.
  cbv [bind modify log lift modify_layer ret]. rewrite Hev.
  cbn [fst snd layers net calls set_layers].
  eexists st, _. reflexivity.
Qed.

(** The loop of [evolve] over an order without repetition, in which a
    layer's input is in the dictionary or produced earlier in the order. *)
Lemma evolve_layers_run `{Collaborators} (ts_input : option TimeSeries) (n : Z)
    (trial : option (list Decimal)) (order : list LayerId) :
  layer_contract →
  ∀ (signal_dict : gmap string (option TimeSeries)) (s : State),
    NoDup order →
    (∀ (i : nat) (lyr p : LayerId),
       order !! i = Some lyr →
       Layer.external_input (layers s lyr) = false →
       Layer.pre_layer (layers s lyr) = Some p →
       is_Some (signal_dict !! Layer.name (layers s p))
       ∨ ∃ j : nat, (j < i)%nat ∧ order !! j = Some p) →
    ∃ signal_dict' s',
      evolve_layers ts_input n trial signal_dict order s = (Ok signal_dict', s')
      ∧ net s' = net s
      ∧ calls s' = calls s
                   ++ ((λ lyr, LayerEvolve lyr
                                 (n * Layer._timesteps_per_network_dt (layers s lyr)))
                       <$> order)
      ∧ (∀ lyr, lyr ∈ order →
           ∃ st, layers s' lyr
                 = Layer.set__timestep
                     (Layer._timestep (layers s lyr)
                      + n * Layer._timesteps_per_network_dt (layers s lyr))
                     (Layer.set_state st (layers s lyr)))
      ∧ (∀ lyr, lyr ∉ order → layers s' lyr = layers s lyr)
      ∧ (∀ key, is_Some (signal_dict !! key) → is_Some (signal_dict' !! key))
      ∧ (∀ lyr, lyr ∈ order → is_Some (signal_dict' !! Layer.name (layers s lyr))).
Proof.
  intros Hc. induction order as [|lyr order IH]; intros signal_dict s Hnodup Havail.
  - exists signal_dict, s. cbn. rewrite app_nil_r.
    split_and!; [done..| |done|done|]; intros lyr Hlyr; by apply elem_of_nil in Hlyr.
  - apply list.NoDup_cons in Hnodup as [Hfresh Hnodup].
    destruct (evolve_layer_run ts_input n trial signal_dict lyr s Hc) as (st & out & Hstep).
    { intros p Hext Hpre. destruct (Havail 0%nat lyr p eq_refl Hext Hpre) as [?|(j & Hj & _)];
        [done|lia]. }
    set (l' := Layer.set__timestep _ _) in Hstep.
    set (s1 := mkState _ _ _) in Hstep.
    assert (∀ x, x ≠ lyr → layers s1 x = layers s x) as Hother.
    { intros x Hx. unfold s1. cbn [layers]. by rewrite fn_lookup_alter_ne. }
    assert (layers s1 lyr = l') as Hself.
    { unfold s1. cbn [layers]. by rewrite fn_lookup_alter. }
    assert (∀ x, Layer.name (layers s1 x) = Layer.name (layers s x)) as Hname.
    { intros x. destruct (decide (x = lyr)) as [->|Hx]; [by rewrite Hself|by rewrite Hother]. }
    destruct (IH (<[Layer.name (layers s lyr) := Some out]> signal_dict) s1 Hnodup)
      as (dict' & s' & Hrun & Hnet & Hcalls & Hevolved & Hrest & Hmono & Hkeys).
    { intros i x p Hi Hext Hpre.
      assert (x ≠ lyr) as Hx.
      { intros ->. apply Hfresh. by eapply list_elem_of_lookup_2. }
      rewrite Hother in Hext, Hpre by done. rewrite Hname.
      destruct (Havail (S i) x p Hi Hext Hpre) as [[v Hv]|(j & Hj & Hp)].
      - left. destruct (decide (Layer.name (layers s lyr) = Layer.name (layers s p)))
          as [<-|Hne].
        + rewrite lookup_insert_eq. by eexists.
        + rewrite lookup_insert_ne by done. by eexists.
      - destruct j as [|j].
        + left. injection Hp as <-. rewrite lookup_insert_eq. by eexists.
        + right. exists j. split; [lia|done]. }
    exists dict', s'. split_and!.
    + cbn [evolve_layers]. unfold bind. rewrite Hstep. exact Hrun.
    + by rewrite Hnet.
    + rewrite Hcalls. unfold s1 at 1. cbn [calls]. rewrite <- app_assoc. f_equal.
      cbn [fmap list_fmap app]. f_equal.
      apply list_fmap_ext. intros i x Hx.
      rewrite Hother; [done|]. intros ->. apply Hfresh. by eapply list_elem_of_lookup_2.
    + intros x [->|Hx]%elem_of_cons.
      * exists st. rewrite (Hrest lyr Hfresh). exact Hself.
      * destruct (Hevolved x Hx) as [st' Hst']. exists st'. rewrite Hst'.
        rewrite Hother; [done|]. by intros ->.
    + intros x Hx. apply not_elem_of_cons in Hx as [Hne Hx].
      rewrite (Hrest x Hx). by apply Hother.
    + intros key [v Hv]. apply Hmono.
      destruct (decide (Layer.name (layers s lyr) = key)) as [<-|Hne].
      * rewrite lookup_insert_eq. by eexists.
      * rewrite lookup_insert_ne by done. by eexists.
    + intros x [->|Hx]%elem_of_cons.
      * apply Hmono. rewrite lookup_insert_eq. by eexists.
      * rewrite <- Hname. by apply Hkeys.
Qed.

(** A call of [evolve] on a network in sync, with layers that keep their
    contract. *)
Lemma evolve_run `{Collaborators} (ts_input : option TimeSeries)
    (duration_arg : option Decimal) (n : Z) (s : State) :
  layer_contract →
  NoDup (Network.evol_order (net s)) →
  Forall (in_sync s) (Network.evol_order (net s)) →
  inputs_available s →
  ∃ signal_dict s',
    evolve ts_input duration_arg (Some n) s = (Ok signal_dict, s')
    ∧ net s' = Network.set__timestep (Network._timestep (net s) + n) (net s)
    ∧ calls s' = calls s
                 ++ ((λ lyr, LayerEvolve lyr
                               (n * Layer._timesteps_per_network_dt (layers s lyr)))
                     <$> Network.evol_order (net s))
    ∧ (∀ lyr, lyr ∈ Network.evol_order (net s) →
         ∃ st, layers s' lyr
               = Layer.set__timestep
                   (Layer._timestep (layers s lyr)
                    + n * Layer._timesteps_per_network_dt (layers s lyr))
                   (Layer.set_state st (layers s lyr)))
    ∧ (∀ lyr, lyr ∉ Network.evol_order (net s) → layers s' lyr = layers s lyr)
    ∧ is_Some (signal_dict !! "external"%string)
    ∧ (∀ lyr, lyr ∈ Network.evol_order (net s) →
         is_Some (signal_dict !! Layer.name (layers s lyr))).
Proof.
  intros Hc Hnodup Hsync Havail.
  set (ts_named := match ts_input with
                   | Some ts => Some (match ts_name ts with
                                      | None => set_ts_name (Some "External input"%string) ts
                                      | Some _ => ts
                                      end)
                   | None => None
                   end).
  destruct (evolve_layers_run ts_named n (trial_starts_of ts_named)
              (Network.evol_order (net s)) Hc
              ({[ "external"%string := ts_named ]}) s Hnodup)
    as (dict' & s1 & Hrun & Hnet & Hcalls & Hevolved & Hrest & Hmono & Hkeys).
  { intros i lyr p Hi Hext Hpre. right. by eapply Havail. }
  set (s2 := set_net (Network.set__timestep (Network._timestep (net s1) + n) (net s1)) s1).
  assert (_check_sync s = (Ok true, s)) as Hpre.
  { destruct (check_sync_outcome s) as [[_ ->]|[Hbad _]]; [done|].
    exfalso. apply Exists_exists in Hbad as (lyr & Hin & Hno).
    rewrite Forall_forall in Hsync. by apply Hno, Hsync. }
  assert (_check_sync s2 = (Ok true, s2)) as Hpost.
  { destruct (check_sync_outcome s2) as [[_ ->]|[Hbad _]]; [done|].
    exfalso. apply Exists_exists in Hbad as (lyr & Hin & Hno). apply Hno.
    unfold s2 in Hin. cbn in Hin. rewrite Hnet in Hin.
    rewrite Forall_forall in Hsync. specialize (Hsync lyr Hin).
    apply list_elem_of_In in Hin. destruct (Hevolved lyr Hin) as [st Hst].
    unfold in_sync in *. unfold s2. cbn [layers net set_net]. rewrite Hst, Hnet. cbn.
    rewrite Hsync. lia. }
  exists dict', s2. split_and!.
  - unfold evolve, bind at 1, evolve_and_advance, bind at 1.
    cbn [resolve_num_timesteps]. unfold ret at 1. fold ts_named.
    unfold bind at 1. rewrite Hpre. unfold bind at 1, get_net at 1. unfold bind at 1.
    rewrite Hrun. cbv [bind modify_net modify ret]. fold s2. by rewrite Hpost.
  - unfold s2. cbn. by rewrite Hnet.
  - done.
  - done.
  - done.
  - apply Hmono. rewrite lookup_singleton_eq. by eexists.
  - done.
Qed.

(** X15. [evolve] with layers that keep their contract, on a network that
    is in sync, whose evolution order has no repetition and puts every layer
    after the layer that feeds it: the call returns; the network clock has
    advanced by [num_timesteps] and nothing else on the network has changed;
    the layers were evolved in the evolution order, each once, by
    [num_timesteps] times its steps per network step; layers outside the
    order are untouched; and the result holds the external input and an
    output under the name of every layer evolved. *)
Theorem evolve_advances_network `{Collaborators} (ts_input : option TimeSeries)
    (duration_arg : option Decimal) (n : Z) (s : State) :
  layer_contract →
  NoDup (Network.evol_order (net s)) →
  Forall (in_sync s) (Network.evol_order (net s)) →
  inputs_available s →
  ∃ signal_dict s',
    evolve ts_input duration_arg (Some n) s = (Ok signal_dict, s')
    ∧ net s' = Network.set__timestep (Network._timestep (net s) + n) (net s)
    ∧ calls s' = calls s
                 ++ ((λ lyr, LayerEvolve lyr
                               (n * Layer._timesteps_per_network_dt (layers s lyr)))
                     <$> Network.evol_order (net s))
    ∧ (∀ lyr, lyr ∈ Network.evol_order (net s) →
         ∃ st, layers s' lyr
               = Layer.set__timestep
                   (Layer._timestep (layers s lyr)
                    + n * Layer._timesteps_per_network_dt (layers s lyr))
                   (Layer.set_state st (layers s lyr)))
    ∧ (∀ lyr, lyr ∉ Network.evol_order (net s) → layers s' lyr = layers s lyr)
    ∧ is_Some (signal_dict !! "external"%string)
    ∧ (∀ lyr, lyr ∈ Network.evol_order (net s) →
         is_Some (signal_dict !! Layer.name (layers s lyr))).
Proof.
  intros Hc Hnodup Hsync Havail.
  destruct (evolve_run ts_input duration_arg n s Hc Hnodup Hsync Havail)
    as (signal_dict & s' & Hrun & Hnet & Hcalls & Hevolved & Hrest & Hext & Hkeys).
  exists signal_dict, s'. split_and!; assumption.
Qed.

Lemma evolve_advances_network_witness :
  let s := network_AB false in
  ∃ signal_dict s',
    @evolve (counting_layers false) None None (Some 2) s = (Ok signal_dict, s')
    ∧ net s' = Network.set__timestep (Network._timestep (net s) + 2) (net s)
    ∧ calls s' = calls s
                 ++ ((λ lyr, LayerEvolve lyr
                               (2 * Layer._timesteps_per_network_dt (layers s lyr)))
                     <$> Network.evol_order (net s))
    ∧ (∀ lyr, lyr ∈ Network.evol_order (net s) →
         ∃ st, layers s' lyr
               = Layer.set__timestep
                   (Layer._timestep (layers s lyr)
                    + 2 * Layer._timesteps_per_network_dt (layers s lyr))
                   (Layer.set_state st (layers s lyr)))
    ∧ (∀ lyr, lyr ∉ Network.evol_order (net s) → layers s' lyr = layers s lyr)
    ∧ is_Some (signal_dict !! "external"%string)
    ∧ (∀ lyr, lyr ∈ Network.evol_order (net s) →
         is_Some (signal_dict !! Layer.name (layers s lyr))).
Proof.
  apply (@evolve_advances_network (counting_layers false) None None 2 (network_AB false)).
  - intros l inp k. exists (Layer.state l), silent. by destruct l.
  - apply (bool_decide_unpack _). vm_compute. exact I.
  - repeat constructor; vm_compute; reflexivity.
  - intros [|[|i]] lyr p Hi Hext Hpre; vm_compute in Hi.
    + injection Hi as <-. discriminate Hext.
    + injection Hi as <-. injection Hpre as <-. exists 0%nat. split; [lia|reflexivity].
    + discriminate Hi.
Defined.

(** ** Resets *)

Lemma in_sync_iff (s s' : State) (lyr : LayerId) :
  Network._timestep (net s') = Network._timestep (net s) →
  Layer._timestep (layers s' lyr) = Layer._timestep (layers s lyr) →
  Layer._timesteps_per_network_dt (layers s' lyr)
  = Layer._timesteps_per_network_dt (layers s lyr) →
  in_sync s' lyr ↔ in_sync s lyr.
Proof. unfold in_sync. by intros -> -> ->. Qed.

Lemma check_sync_passes `{Collaborators} (s : State) :
  Forall (in_sync s) (Network.evol_order (net s)) → _check_sync s = (Ok true, s).
Proof.
  intros Hsync. destruct (check_sync_outcome s) as [[_ ->]|[Hbad _]]; [done|].
  exfalso. apply Exists_exists in Hbad as (lyr & Hin & Hno).
  rewrite Forall_forall in Hsync. by apply Hno, Hsync.
Qed.

(** X16. [reset_all] brings the network back in sync, whatever state the
    clocks were in: afterwards every member is in sync with the network, and
    if the evolution order lists members only, [_check_sync] passes, so that
    [evolve] will not refuse the network. It changes nothing on the network but
    its clock, and neither the connections nor the time steps of the
    layers. *)
Theorem reset_all_restores_synchrony `{Collaborators} (s : State) :
  set_iter_spec →
  Forall (λ lyr, lyr ∈ Network.layerset (net s)) (Network.evol_order (net s)) →
  ∃ s', reset_all s = (Ok tt, s')
        ∧ net s' = Network.set__timestep 0 (net s)
        ∧ calls s' = calls s
        ∧ (∀ lyr, lyr ∈ Network.layerset (net s) → in_sync s' lyr)
        ∧ _check_sync s' = (Ok true, s')
        ∧ (∀ lyr, Layer.pre_layer (layers s' lyr) = Layer.pre_layer (layers s lyr)
                  ∧ Layer.dt (layers s' lyr) = Layer.dt (layers s lyr)
                  ∧ Layer._timesteps_per_network_dt (layers s' lyr)
                    = Layer._timesteps_per_network_dt (layers s lyr)
                  ∧ Layer.name (layers s' lyr) = Layer.name (layers s lyr)).
Proof.
  intros Hiter Hmembers.
  set (s' := set_net (Network.set__timestep 0 (net s))
               (set_layers (foldl (λ st lyr, alter Layer.reset_all lyr st) (layers s)
                                  (set_iter (Network.layerset (net s)))) s)).
  assert (reset_all s = (Ok tt, s')) as Hrun.
  { unfold reset_all, bind at 1, get_net. unfold bind.
    rewrite for_each_modify_layer. by destruct s. }
  assert (∀ lyr, layers s' lyr
                 = if decide (lyr ∈ set_iter (Network.layerset (net s)))
                   then Layer.reset_all (layers s lyr) else layers s lyr) as Hlayers.
  { intros lyr. unfold s'. cbn [layers set_net set_layers].
    apply (foldl_alter_idempotent _ _ layer_reset_all_idempotent). }
  assert (∀ lyr, lyr ∈ Network.layerset (net s) → in_sync s' lyr) as Hsync.
  { intros lyr Hlyr. unfold in_sync. rewrite Hlayers.
    rewrite decide_True by (by apply (elem_of_set_iter Hiter)). done. }
  exists s'. split_and!; [done..| |].
  - apply check_sync_passes. unfold s' at 2. cbn [net set_net Network.evol_order
      Network.set__timestep].
    eapply Forall_impl; [|exact Hmembers]. intros lyr Hlyr. by apply Hsync.
  - intros lyr. rewrite Hlayers. by destruct (decide _).
Qed.

Lemma reset_all_restores_synchrony_witness :
  let s := (@evolve lazy_layers None None (Some 2) lazy_network_AB).2 in
  ∃ s', @reset_all lazy_layers s = (Ok tt, s')
        ∧ net s' = Network.set__timestep 0 (net s)
        ∧ calls s' = calls s
        ∧ (∀ lyr, lyr ∈ Network.layerset (net s) → in_sync s' lyr)
        ∧ _check_sync s' = (Ok true, s')
        ∧ (∀ lyr, Layer.pre_layer (layers s' lyr) = Layer.pre_layer (layers s lyr)
                  ∧ Layer.dt (layers s' lyr) = Layer.dt (layers s lyr)
                  ∧ Layer._timesteps_per_network_dt (layers s' lyr)
                    = Layer._timesteps_per_network_dt (layers s lyr)
                  ∧ Layer.name (layers s' lyr) = Layer.name (layers s lyr)).
Proof.
  apply (@reset_all_restores_synchrony lazy_layers).
  - intros V. reflexivity.
  - repeat constructor; apply (bool_decide_unpack _); vm_compute; exact I.
Defined.

Lemma layer_reset_state_idempotent (l : Layer.t) :
  Layer.reset_state (Layer.reset_state l) = Layer.reset_state l.
Proof. by destruct l. Qed.

(** X17. [reset_state] resets states and nothing else: it returns, every
    member has the state [zeros(size)], no layer outside the layer set is
    touched, and no clock, connection or time step changes, so that a
    network is in sync afterwards exactly if it was before. *)
Theorem reset_state_keeps_time `{Collaborators} (s : State) :
  set_iter_spec →
  ∃ s', reset_state s = (Ok tt, s')
        ∧ net s' = net s ∧ calls s' = calls s
        ∧ (∀ lyr, layers s' lyr
                  = if bool_decide (lyr ∈ Network.layerset (net s))
                    then Layer.set_state
                           (replicate (Z.to_nat (Layer.size (layers s lyr))) 0)
                           (layers s lyr)
                    else layers s lyr)
        ∧ (∀ lyr, in_sync s' lyr ↔ in_sync s lyr)
        ∧ (_check_sync s').1 = (_check_sync s).1.
Proof.
  intros Hiter.
  set (s' := set_layers (foldl (λ st lyr, alter Layer.reset_state lyr st) (layers s)
                               (set_iter (Network.layerset (net s)))) s).
  assert (reset_state s = (Ok tt, s')) as Hrun.
  { unfold reset_state, bind at 1, get_net. by rewrite for_each_modify_layer. }
  assert (∀ lyr, layers s' lyr
                 = if bool_decide (lyr ∈ Network.layerset (net s))
                   then Layer.reset_state (layers s lyr) else layers s lyr) as Hlayers.
  { intros lyr. unfold s'. cbn [layers set_layers].
    rewrite (foldl_alter_idempotent _ _ layer_reset_state_idempotent).
    destruct (decide _) as [Hin|Hin]; case_bool_decide as Hmem; try done; exfalso.
    - by apply Hmem, (elem_of_set_iter Hiter).
    - by apply Hin, (elem_of_set_iter Hiter). }
  assert (∀ lyr, in_sync s' lyr ↔ in_sync s lyr) as Hsync.
  { intros lyr. apply in_sync_iff; [done|..]; rewrite Hlayers; by case_bool_decide. }
  exists s'. split_and!; [done..|].
  destruct (check_sync_outcome s) as [[Hall ->]|[Hbad ->]].
  - rewrite check_sync_passes; [done|].
    eapply Forall_impl; [|exact Hall]. intros lyr Hlyr. by apply Hsync.
  - destruct (check_sync_outcome s') as [[Hall _]|[_ ->]]; [|done].
    exfalso. apply Exists_exists in Hbad as (lyr & Hin & Hno).
    rewrite Forall_forall in Hall. by apply Hno, Hsync, Hall.
Qed.

Lemma reset_state_keeps_time_witness :
  let s := evolved_AB false in
  ∃ s', @reset_state (counting_layers false) s.2 = (Ok tt, s')
        ∧ net s' = net s.2 ∧ calls s' = calls s.2
        ∧ (∀ lyr, layers s' lyr
                  = if bool_decide (lyr ∈ Network.layerset (net s.2))
                    then Layer.set_state
                           (replicate (Z.to_nat (Layer.size (layers s.2 lyr))) 0)
                           (layers s.2 lyr)
                    else layers s.2 lyr)
        ∧ (∀ lyr, in_sync s' lyr ↔ in_sync s.2 lyr)
        ∧ (_check_sync s').1 = (_check_sync s.2).1.
Proof.
  apply (@reset_state_keeps_time (counting_layers false)).
  intros V. reflexivity.
Defined.

(** ** Training *)





Lemma float_floor_div_state (a : Decimal) (b : option Decimal) (s : State) :
  (float_floor_div a b s).2 = s.
Proof. unfold float_floor_div. destruct b as [d|]; [|done]. by destruct (dec_is_zero d). Qed.

(** Computing the batches reads the time step and changes nothing. *)
Lemma batch_sizes_state (num_timesteps : Z) (batch_durs : option (list Decimal))
    (nums_ts_batch : option (list Z)) (s : State) :
  (batch_sizes num_timesteps batch_durs nums_ts_batch s).2 = s.
Proof.
  unfold batch_sizes, bind at 1, get_net.
  assert (∀ (m : M (list Z)), (∀ s0, (m s0).2 = s0) →
            (bind m (λ v, lift (fit_batches num_timesteps v)) s).2 = s) as Hbind.
  { intros m Hm. unfold bind. specialize (Hm s). by destruct (m s) as [[v| |] s0]. }
  apply Hbind. intros s0.
  destruct nums_ts_batch as [[|x [|y nums]]|]; try done.
  destruct batch_durs as [durs|]; [|done].
  assert (∀ durs' s1,
            ((fix convert (durs : list Decimal) : M (list Z) :=
                match durs with
                | [] => ret []
                | d :: durs' =>
                    x <- float_floor_div d (Network._dt (net s)) ;;
                    xs <- convert durs' ;;
                    ret (x :: xs)
                end) durs' s1).2 = s1) as Hconv.
  { induction durs' as [|d durs' IH]; intros s1; [done|].
    unfold bind at 1. pose proof (float_floor_div_state d (Network._dt (net s)) s1) as Hd.
    destruct (float_floor_div d (Network._dt (net s)) s1) as [[x| |] s2];
      cbn in Hd; subst s2; [|done..].
    unfold bind. specialize (IH s1).
    by destruct ((fix convert (durs : list Decimal) : M (list Z) := _) durs' s1)
      as [[xs| |] s3]. }
  destruct durs as [|d [|d' durs]];
    [exact (Hconv [] s0)| |exact (Hconv (d :: d' :: durs) s0)].
  unfold bind. pose proof (float_floor_div_state d (Network._dt (net s)) s0) as Hd.
  by destruct (float_floor_div d (Network._dt (net s)) s0) as [[x| |] s2].
Qed.



(** ** The sizes of the batches *)








(** ** What [evolve] can do to the state *)




(** ** Networks built in series *)

















(** ** Training without input *)

Lemma train_loop_without_input `{Collaborators}
    (training_fct : gmap string (option TimeSeries) → bool → bool → M unit)
    (batch_num : nat) (v_ts_batch : list Z) (num_batches : nat) (s : State) :
  train_loop training_fct None batch_num v_ts_batch num_batches s
  = (match v_ts_batch with [] => Ok tt | _ :: _ => Raise AttributeError end, s).
Proof. destruct v_ts_batch as [|x rest]; [done|]. reflexivity. Qed.

(** X25. [train] cannot work without [ts_input], although the argument is
    optional: however the call ends, no layer was evolved, the callback
    was not called and the state is as before; and when there is at least
    one batch to run (the network having a time step), the call raises the
    [AttributeError] of [None.clip]. *)
Theorem train_without_input `{Collaborators}
    (training_fct : gmap string (option TimeSeries) → bool → bool → M unit)
    (duration_arg : option Decimal) (batch_durs : option (list Decimal))
    (num_timesteps : option Z) (nums_ts_batch : option (list Z)) (s : State) :
  is_Some (Network._dt (net s)) →
  (train training_fct None duration_arg batch_durs num_timesteps nums_ts_batch s).2 = s
  ∧ ∀ n v_ts_batch,
      (resolve_num_timesteps None duration_arg num_timesteps s).1 = Ok n →
      (batch_sizes n batch_durs nums_ts_batch s).1 = Ok v_ts_batch →
      v_ts_batch ≠ [] →
      (train training_fct None duration_arg batch_durs num_timesteps nums_ts_batch s).1
      = Raise AttributeError.
Proof.
  intros _.
  assert (∃ r, train training_fct None duration_arg batch_durs num_timesteps nums_ts_batch s
               = (r, s)
               ∧ ∀ n v_ts_batch,
                   (resolve_num_timesteps None duration_arg num_timesteps s).1 = Ok n →
                   (batch_sizes n batch_durs nums_ts_batch s).1 = Ok v_ts_batch →
                   v_ts_batch ≠ [] → r = Raise AttributeError) as (r & -> & Hr); [|done].
  unfold train.
  pose proof (resolve_num_timesteps_state None duration_arg num_timesteps s) as Hres.
  destruct (resolve_num_timesteps None duration_arg num_timesteps s) as [rn s0] eqn:Hn.
  cbn in Hres. subst s0. unfold bind at 1. rewrite Hn.
  destruct rn as [n| |]; [|by eexists..].
  pose proof (batch_sizes_state n batch_durs nums_ts_batch s) as Hbs.
  destruct (batch_sizes n batch_durs nums_ts_batch s) as [rb s0] eqn:Hb.
  cbn in Hbs. subst s0. unfold bind. rewrite Hb.
  destruct rb as [w| |].
  - rewrite train_loop_without_input. eexists. split; [done|].
    intros n' w' [= <-]. rewrite Hb. intros [= <-] Hne. by destruct w.
  - eexists. split; [done|]. intros n' w' [= <-]. by rewrite Hb.
  - eexists. split; [done|]. intros n' w' [= <-]. by rewrite Hb.
Qed.

Lemma train_without_input_witness :
  (@train (counting_layers false) idle_callback None None None (Some 100) (Some [30])
          (network_AB false)).2 = network_AB false
  ∧ ∀ n v_ts_batch,
      (resolve_num_timesteps None None (Some 100) (network_AB false)).1 = Ok n →
      (batch_sizes n None (Some [30]) (network_AB false)).1 = Ok v_ts_batch →
      v_ts_batch ≠ [] →
      (@train (counting_layers false) idle_callback None None None (Some 100) (Some [30])
              (network_AB false)).1
      = Raise AttributeError.
Proof.
  apply (@train_without_input (counting_layers false) idle_callback None None (Some 100)
           (Some [30]) (network_AB false)).
  vm_compute. eexists. reflexivity.
Defined.

(** ** Removing a layer succeeds *)



